(** * anyser: tagging of custom data types inside a primitive tree

    A shallow embedding of [src/anyser/__init__.py] (classes [Codec] and
    [Serializer]) and the properties of its two tree transformers,
    [Serializer.to_primitive] and [Serializer.from_primitive]. *)

From Stdlib Require Import String Ascii List ZArith Bool Lia DecimalString.
Import ListNotations.
Local Open Scope string_scope.
Local Open Scope list_scope.
Local Set Warnings "-register-all".

(** ** Python values

    The transformers walk arbitrary Python objects.  The model keeps the
    builtin kinds the code tests for ([dict], [list], [int], [str]) apart,
    has the remaining JSON scalars, and represents an instance of any other
    class by the class name and a value standing for its state
    ([UUID('15..')] is [VObj "UUID" (VStr "15..")], [MyType(a, b, c)] is
    [VObj "MyType" (VList [a; b; c])]).

    Such a class is taken not to derive from [dict], [list], [str] or
    [int].

    A [dict] is the list of its items in insertion order.  Characters are
    the code points below 256; a float is carried as its bit pattern, which
    the transformers never inspect. *)
Inductive value : Type :=
| VNone
| VBool (b : bool)
| VInt (n : Z)
| VFloat (bits : Z)
| VStr (s : string)
| VList (items : list value)
| VDict (items : list (value * value))
| VObj (cls : string) (state : value).

(** [type(obj)]: the exact runtime kind. *)
Inductive kind : Type :=
| KNoneType | KBool | KInt | KFloat | KStr | KList | KDict
| KClass (cls : string).

Definition py_type (obj : value) : kind :=
  match obj with
  | VNone => KNoneType
  | VBool _ => KBool
  | VInt _ => KInt
  | VFloat _ => KFloat
  | VStr _ => KStr
  | VList _ => KList
  | VDict _ => KDict
  | VObj cls _ => KClass cls
  end.

Definition kind_eqb (a b : kind) : bool :=
  match a, b with
  | KNoneType, KNoneType | KBool, KBool | KInt, KInt | KFloat, KFloat
  | KStr, KStr | KList, KList | KDict, KDict => true
  | KClass x, KClass y => String.eqb x y
  | _, _ => false
  end.

(** Equality of dictionary keys.  Keys are compared structurally; Python's
    identification of [1], [1.0] and [True] as keys is not modelled. *)
Fixpoint value_eqb (a b : value) : bool :=
  match a, b with
  | VNone, VNone => true
  | VBool x, VBool y => Bool.eqb x y
  | VInt x, VInt y => Z.eqb x y
  | VFloat x, VFloat y => Z.eqb x y
  | VStr x, VStr y => String.eqb x y
  | VList xs, VList ys =>
      (fix all2 (l1 l2 : list value) : bool :=
         match l1, l2 with
         | [], [] => true
         | x :: l1', y :: l2' => value_eqb x y && all2 l1' l2'
         | _, _ => false
         end) xs ys
  | VDict xs, VDict ys =>
      (fix all2 (l1 l2 : list (value * value)) : bool :=
         match l1, l2 with
         | [], [] => true
         | (k1, v1) :: l1', (k2, v2) :: l2' =>
             value_eqb k1 k2 && value_eqb v1 v2 && all2 l1' l2'
         | _, _ => false
         end) xs ys
  | VObj c x, VObj d y => String.eqb c d && value_eqb x y
  | _, _ => false
  end.

Section ValueInduction.
Variable P : value -> Prop.
Hypothesis P_none : P VNone.
Hypothesis P_bool : forall b, P (VBool b).
Hypothesis P_int : forall n, P (VInt n).
Hypothesis P_float : forall bits, P (VFloat bits).
Hypothesis P_str : forall s, P (VStr s).
Hypothesis P_list : forall items, Forall P items -> P (VList items).
Hypothesis P_dict :
  forall items, Forall (fun kv => P (fst kv) /\ P (snd kv)) items ->
                P (VDict items).
Hypothesis P_obj : forall cls state, P state -> P (VObj cls state).

(** Induction on a value that also covers the values inside its lists
    and items. *)
Fixpoint value_nested_ind (v : value) : P v :=
  match v with
  | VNone => P_none
  | VBool b => P_bool b
  | VInt n => P_int n
  | VFloat bits => P_float bits
  | VStr s => P_str s
  | VList items =>
      P_list items
        ((fix all (l : list value) : Forall P l :=
            match l with
            | [] => Forall_nil P
            | x :: l' => Forall_cons x (value_nested_ind x) (all l')
            end) items)
  | VDict items =>
      P_dict items
        ((fix all (l : list (value * value))
            : Forall (fun kv => P (fst kv) /\ P (snd kv)) l :=
            match l with
            | [] => Forall_nil _
            | kv :: l' =>
                Forall_cons kv
                  (conj (value_nested_ind (fst kv)) (value_nested_ind (snd kv)))
                  (all l')
            end) items)
  | VObj cls state => P_obj cls state (value_nested_ind state)
  end.
End ValueInduction.

(** [hash(obj)] is known to succeed: the builtin scalars are hashable.
    Lists and dicts are not; whether an instance is depends on its class
    (a class with [__eq__] and without [__hash__], as [MyType] of the
    tests, is not), which the model does not know. *)
Definition hashable (v : value) : bool :=
  match v with
  | VList _ | VDict _ | VObj _ _ => false
  | _ => true
  end.

(** ** Exceptions and results *)

Inductive exn : Type :=
| KeyError (key : value)
    (* [d[key]] on a missing key *)
| ValueError (template : string) (arg : value)
    (* [ValueError(template % arg)], message left unformatted *)
| TypeError (msg : string)
| AttributeError (obj : value) (attr : string)
| RecursionError
    (* the recursion went deeper than the interpreter allows *)
| Unmodelled (what : string).
    (* not an exception of Python: the program leaves the fragment
       modelled here, and the model does not tell what it does *)

Inductive result (A : Type) : Type :=
| Ok (a : A)
| Raise (e : exn).
Arguments Ok {A} a.
Arguments Raise {A} e.

Definition bind {A B : Type} (m : result A) (f : A -> result B) : result B :=
  match m with
  | Ok a => f a
  | Raise e => Raise e
  end.

Notation "x <- m ;; k" := (bind m (fun x => k))
  (at level 61, m at next level, right associativity).

(** What hashing a value that is not known to be hashable ends in:
    [TypeError] for a list or a dict; for an instance the model does not
    tell. *)
Definition hash_error (v : value) : exn :=
  match v with
  | VObj _ _ => Unmodelled "hash() of an instance"
  | _ => TypeError "unhashable type"
  end.

(** A Python callable of one argument. *)
Definition callable : Type := value -> result value.

(** ** Insertion-ordered mappings *)

Section Assoc.
Context {K V : Type} (eqb : K -> K -> bool).

(** [m[k]], as [None] when [k] is absent. *)
Fixpoint assoc_get (k : K) (m : list (K * V)) : option V :=
  match m with
  | [] => None
  | (k', v') :: m' => if eqb k' k then Some v' else assoc_get k m'
  end.

(** [m[k] = v]: an existing key keeps its position and gets the new
    value; a new key goes to the end. *)
Fixpoint assoc_set (k : K) (v : V) (m : list (K * V)) : list (K * V) :=
  match m with
  | [] => [(k, v)]
  | (k', v') :: m' =>
      if eqb k' k then (k', v) :: m' else (k', v') :: assoc_set k v m'
  end.

(** [k in m]. *)
Definition assoc_mem (k : K) (m : list (K * V)) : bool :=
  match assoc_get k m with
  | Some _ => true
  | None => false
  end.
End Assoc.

Definition dict_get := @assoc_get value value value_eqb.
Definition dict_set := @assoc_set value value value_eqb.
Definition dict_contains := @assoc_mem value value value_eqb.

Section Comprehensions.
Variables (fk fv : callable).

(** [{fk(k): fv(v) for k, v in items}], continued from the items stored
    so far.  For each item the key expression is evaluated, then the
    value expression, then the pair is stored, which hashes the key. *)
Fixpoint dict_comprehension (items acc : list (value * value))
  : result (list (value * value)) :=
  match items with
  | [] => Ok acc
  | (k, v) :: rest =>
      k' <- fk k ;;
      v' <- fv v ;;
      if hashable k'
      then dict_comprehension rest (dict_set k' v' acc)
      else Raise (hash_error k')
  end.

(** [list(map(fv, items))]. *)
Fixpoint list_map (items : list value) : result (list value) :=
  match items with
  | [] => Ok []
  | x :: rest =>
      y <- fv x ;;
      ys <- list_map rest ;;
      Ok (y :: ys)
  end.

(** [fv(d[key])], the lookup raising [KeyError] on a missing key. *)
Fixpoint apply_at (key : value) (items : list (value * value))
  : result value :=
  match items with
  | [] => Raise (KeyError key)
  | (k, v) :: rest => if value_eqb k key then fv v else apply_at key rest
  end.
End Comprehensions.

(** ** Strings *)

(** [s.startswith(p)] *)
Definition startswith (p s : string) : bool := String.prefix p s.

(** [s[1:]] *)
Definition drop_first (s : string) : string :=
  match s with
  | EmptyString => EmptyString
  | String _ rest => rest
  end.

(** [\w] of a [str] pattern, on the code points below 256: the ASCII
    letters and digits, the underscore, and the Latin-1 letters and
    numeric characters. *)
Definition is_word (c : ascii) : bool :=
  let n := N_of_ascii c in
  ((48 <=? n) && (n <=? 57)            (* 0-9 *)
   || (65 <=? n) && (n <=? 90)         (* A-Z *)
   || (n =? 95)                        (* _ *)
   || (97 <=? n) && (n <=? 122)        (* a-z *)
   || (n =? 170) || (n =? 178) || (n =? 179) || (n =? 181)
   || (n =? 185) || (n =? 186)
   || (188 <=? n) && (n <=? 190)
   || (192 <=? n) && (n <=? 214)
   || (216 <=? n) && (n <=? 246)
   || (248 <=? n) && (n <=? 255))%N.

(** [\w*], greedy: the longest prefix of word characters, and the rest. *)
Fixpoint span_word (s : string) : string * string :=
  match s with
  | EmptyString => (EmptyString, EmptyString)
  | String c rest =>
      if is_word c
      then let (w, tl) := span_word rest in (String c w, tl)
      else (EmptyString, s)
  end.

(** [.*], greedy: the longest prefix without a line feed. *)
Fixpoint span_dot (s : string) : string :=
  match s with
  | EmptyString => EmptyString
  | String c rest =>
      if Ascii.eqb c "010" then EmptyString else String c (span_dot rest)
  end.

(** The markers and reserved keys.  [__init__] sets them to the same
    constants in every instance. *)
Definition _escape_char : string := "/".
Definition _type_char : string := "$".
Definition _type_key : string := _type_char ++ "t".
Definition _value_key : string := "v".

(** [self._typed_string_parser.match(s)] followed by [m.groups()], for the
    pattern [^\$(\w+)(?::(.+))?].  [None] when there is no match; otherwise
    the two groups, the second one [None] when it did not take part.

    The pattern is anchored at the start only.  [\w+] takes every word
    character it can; the optional group is tried next and, when the
    colon or a first body character is missing, skipped; nothing after
    the group has to match, so the first attempt already succeeds. *)
Definition _typed_string_parser (s : string) : option (string * option string) :=
  match s with
  | String c rest =>
      if Ascii.eqb c "$" then
        match span_word rest with
        | (EmptyString, _) => None
        | (name, String ":" after) =>
            match span_dot after with
            | EmptyString => Some (name, None)
            | body => Some (name, Some body)
            end
        | (name, _) => Some (name, None)
        end
      else None
  | EmptyString => None
  end.

(** A group of a match object as a Python value. *)
Definition group_value (g : option string) : value :=
  match g with
  | Some s => VStr s
  | None => VNone
  end.

(** ** Codecs and the serializer *)

Module Codec.
Record t : Type := mk {
  name : string;
  kind : kind;
  to_primitive : callable;
  from_primitive : callable
}.
End Codec.

Record Serializer : Type := {
  codecs : list Codec.t;
  encoder : value -> result string;
  decoder : string -> result value;
  _by_kind : list (kind * (string * callable));
  _by_name : list (string * callable)
}.

(** [Serializer.__init__].  The two indices are dict comprehensions over
    the codecs: every codec is stored under its key by assignment. *)
Definition Serializer__init__ (cs : list Codec.t)
    (enc : value -> result string) (dec : string -> result value) : Serializer :=
  {| codecs := cs;
     encoder := enc;
     decoder := dec;
     _by_kind :=
       fold_left
         (fun m c => assoc_set kind_eqb (Codec.kind c)
                       (Codec.name c, Codec.to_primitive c) m)
         cs [];
     _by_name :=
       fold_left
         (fun m c => assoc_set String.eqb (Codec.name c)
                       (Codec.from_primitive c) m)
         cs [] |}.

(** [obj_type in by_kind] and [by_kind[obj_type]] *)
Definition by_kind (self : Serializer) (k : kind) : option (string * callable) :=
  assoc_get kind_eqb k (_by_kind self).

(** [by_name[tpe]], where [tpe] is whatever the decoded tree holds. *)
Definition by_name (self : Serializer) (tpe : value) : result callable :=
  match tpe with
  | VStr n =>
      match assoc_get String.eqb n (_by_name self) with
      | Some f => Ok f
      | None => Raise (KeyError tpe)
      end
  | _ =>
      if hashable tpe then Raise (KeyError tpe)
      else Raise (hash_error tpe)
  end.

(** ** [Serializer.from_primitive] *)

(** The nested [filter_dict_keys] of [from_primitive].  A key that is
    not a string is asked for [startswith] all the same: the builtin
    scalars have no such attribute; what an instance answers depends on
    its class. *)
Definition from_filter_dict_keys (self : Serializer) (key : value)
  : result value :=
  match key with
  | VStr k =>
      if startswith _escape_char k then Ok (VStr (drop_first k))
      else if startswith _type_char k then
        match _typed_string_parser k with
        | Some (tpe, body) =>
            decode <- by_name self (VStr tpe) ;;
            decode (group_value body)
        | None => Raise (ValueError "Invalid type on %r" key)
        end
      else Ok key
  | VObj _ _ => Raise (Unmodelled "startswith of an instance")
  | _ => Raise (AttributeError key "startswith")
  end.

(** The nested [inner] of [from_primitive].  In the tagged mapping the
    callee [by_name[tpe]] is evaluated before its argument.

    The recursion follows the tree, and this definition puts no bound on
    it; [from_inner_limited] below is the same walk under the bound of
    the interpreter, and the two agree on every tree that is not nested
    deeper than the bound. *)
Fixpoint from_inner (self : Serializer) (obj : value) {struct obj}
  : result value :=
  match obj with
  | VDict items =>
      match dict_get (VStr _type_key) items with
      | Some tpe =>
          decode <- by_name self tpe ;;
          arg <- apply_at (from_inner self) (VStr _value_key) items ;;
          decode arg
      | None =>
          d <- dict_comprehension (from_filter_dict_keys self)
                 (from_inner self) items [] ;;
          Ok (VDict d)
      end
  | VList items =>
      l <- list_map (from_inner self) items ;;
      Ok (VList l)
  | VStr s =>
      if startswith _escape_char s then Ok (VStr (drop_first s))
      else if startswith _type_char s then
        match _typed_string_parser s with
        | Some (tpe, body) =>
            decode <- by_name self (VStr tpe) ;;
            decode (group_value body)
        | None => Raise (ValueError "Invalid type on %r" obj)
        end
      else Ok obj
  | _ => Ok obj
  end.

Definition from_primitive (self : Serializer) (obj : value) : result value :=
  from_inner self obj.

(** [inner] of [from_primitive] when the interpreter allows [depth]
    nested calls of it: going deeper raises [RecursionError]. *)
Fixpoint from_inner_limited (self : Serializer) (depth : nat) (obj : value)
  : result value :=
  match depth with
  | O => Raise RecursionError
  | S depth' =>
      let inner := from_inner_limited self depth' in
      match obj with
      | VDict items =>
          match dict_get (VStr _type_key) items with
          | Some tpe =>
              decode <- by_name self tpe ;;
              arg <- apply_at inner (VStr _value_key) items ;;
              decode arg
          | None =>
              d <- dict_comprehension (from_filter_dict_keys self)
                     inner items [] ;;
              Ok (VDict d)
          end
      | VList items =>
          l <- list_map inner items ;;
          Ok (VList l)
      | VStr s =>
          if startswith _escape_char s then Ok (VStr (drop_first s))
          else if startswith _type_char s then
            match _typed_string_parser s with
            | Some (tpe, body) =>
                decode <- by_name self (VStr tpe) ;;
                decode (group_value body)
            | None => Raise (ValueError "Invalid type on %r" obj)
            end
          else Ok obj
      | _ => Ok obj
      end
  end.

Definition from_primitive_limited (self : Serializer) (depth : nat)
    (obj : value) : result value :=
  from_inner_limited self depth obj.

(** ** [Serializer.to_primitive] *)

(** [str(v)], as the [%s] conversion applies it, for the values whose
    text the model can tell: a string is its own text, and [None], the
    bools and the integers have a fixed one.  The text of a float is its
    shortest decimal, that of a list or dict is built from the [repr] of
    its parts, and that of an instance is what its class says (by
    default it holds the address of the object): for these the model
    does not tell. *)
Definition percent_s (v : value) : result string :=
  match v with
  | VStr s => Ok s
  | VNone => Ok "None"
  | VBool true => Ok "True"
  | VBool false => Ok "False"
  | VInt n => Ok (NilZero.string_of_int (Z.to_int n))
  | _ => Raise (Unmodelled "str() of a float, list, dict or instance")
  end.

(** The nested [filter_dict_keys] of [to_primitive]. *)
Definition to_filter_dict_keys (self : Serializer) (key : value)
  : result value :=
  let obj_type := py_type key in
  match key with
  | VStr k =>
      if startswith _type_char k || startswith _escape_char k
      then Ok (VStr (_escape_char ++ k))
      else
        match by_kind self obj_type with
        | Some (name, writer) =>
            w <- writer key ;;
            txt <- percent_s w ;;
            Ok (VStr (_type_char ++ name ++ ":" ++ txt))
        | None => Ok key
        end
  | _ =>
      match by_kind self obj_type with
      | Some (name, writer) =>
          w <- writer key ;;
          txt <- percent_s w ;;
          Ok (VStr (_type_char ++ name ++ ":" ++ txt))
      | None => Ok key
      end
  end.

(** The nested [inner] of [to_primitive].  A codec may return any object,
    which is transformed in turn, so the recursion is not bounded by the
    input: [depth] is the number of nested calls of [inner] the
    interpreter allows, and going deeper raises [RecursionError]. *)
Fixpoint to_inner (self : Serializer) (depth : nat) (obj : value)
  : result value :=
  match depth with
  | O => Raise RecursionError
  | S depth' =>
      let inner := to_inner self depth' in
      let obj_type := py_type obj in
      match obj with
      | VDict items =>
          d <- dict_comprehension (to_filter_dict_keys self) inner items [] ;;
          Ok (VDict d)
      | VList items =>
          l <- list_map inner items ;;
          Ok (VList l)
      | VInt _ => Ok obj
      | _ =>
          match by_kind self obj_type with
          | Some (name, writer) =>
              v <- writer obj ;;
              match v with
              | VNone => Ok (VStr (_type_char ++ name))
              | _ =>
                  v' <- inner v ;;
                  match v' with
                  | VStr body =>
                      Ok (VStr (_type_char ++ name ++ ":" ++ body))
                  | _ =>
                      Ok (VDict [(VStr _type_key, VStr name);
                                 (VStr _value_key, v')])
                  end
              end
          | None =>
              match obj with
              | VStr s =>
                  if startswith _type_char s || startswith _escape_char s
                  then Ok (VStr (_escape_char ++ s))
                  else Ok obj
              | _ => Ok obj
              end
          end
      end
  end.

Definition to_primitive (self : Serializer) (depth : nat) (obj : value)
  : result value :=
  to_inner self depth obj.

(** [dumps] and [loads] compose the transformers with the text encoder
    and decoder the serializer was built with. *)
Definition dumps (self : Serializer) (depth : nat) (data : value)
  : result string :=
  match to_primitive self depth data with
  | Ok p => encoder self p
  | Raise e => Raise e
  end.

Definition loads (self : Serializer) (data : string) : result value :=
  match decoder self data with
  | Ok p => from_primitive self p
  | Raise e => Raise e
  end.

(** ** Codecs of the documentation and the tests *)

(** [json.dumps] and [json.loads] are outside the transformers. *)
Definition json_dumps (p : value) : result string :=
  Raise (Unmodelled "json.dumps").
Definition json_loads (text : string) : result value :=
  Raise (Unmodelled "json.loads").

(** An instance whose state is a string, such as a [UUID]: [str(obj)]. *)
Definition state_str : callable := fun obj =>
  match obj with
  | VObj _ (VStr s) => Ok (VStr s)
  | _ => Raise (Unmodelled "str() of a float, list, dict or instance")
  end.

(** The constructor of such a class, as [UUID(body)]. *)
Definition construct_from_str (cls : string) : callable := fun body =>
  match body with
  | VStr s => Ok (VObj cls (VStr s))
  | _ => Raise (TypeError "a string is required")
  end.

(** [Codec(name='uuid', kind=UUID, to_primitive=str, from_primitive=UUID)] *)
Definition uuid_codec : Codec.t :=
  Codec.mk "uuid" (KClass "UUID") state_str (construct_from_str "UUID").

(** [Codec(name='dt', kind=datetime, to_primitive=lambda dt: dt.isoformat(),
    from_primitive=...strptime...)], the datetime carried as its ISO text. *)
Definition dt_codec : Codec.t :=
  Codec.mk "dt" (KClass "datetime") state_str (construct_from_str "datetime").

(** [Codec(name='mytype', kind=MyType,
          to_primitive=lambda obj: [obj.a, obj.b, obj.c],
          from_primitive=lambda data: MyType( *data))] *)
Definition mytype_codec : Codec.t :=
  Codec.mk "mytype" (KClass "MyType")
    (fun obj =>
       match obj with
       | VObj _ (VList [a; b; c]) => Ok (VList [a; b; c])
       | _ => Raise (AttributeError obj "a")
       end)
    (fun data =>
       match data with
       | VList [a; b; c] => Ok (VObj "MyType" (VList [a; b; c]))
       | _ => Raise (TypeError "MyType() takes 3 positional arguments")
       end).

Definition MyType (a b c : value) : value := VObj "MyType" (VList [a; b; c]).

Definition test_serializer : Serializer :=
  Serializer__init__ [uuid_codec; dt_codec; mytype_codec] json_dumps json_loads.

(** [Codec(name='path', kind=PurePosixPath, to_primitive=str,
          from_primitive=PurePosixPath)]: a class whose text begins with
    the escape character. *)
Definition path_codec : Codec.t :=
  Codec.mk "path" (KClass "PurePosixPath") state_str
    (construct_from_str "PurePosixPath").

(** [Codec(name='int', kind=int, to_primitive=str, from_primitive=int)] *)
Definition int_codec : Codec.t :=
  Codec.mk "int" KInt
    (fun obj => s <- percent_s obj ;; Ok (VStr s))
    (fun body =>
       match body with
       | VStr s =>
           match NilZero.int_of_string s with
           | Some d => Ok (VInt (Z.of_int d))
           | None => Raise (Unmodelled "int() of a text that is not a decimal")
           end
       | VInt n => Ok (VInt n)
       | _ => Raise (TypeError "int() argument must be a string or a number")
       end).

(** A class without state, encoded as the bare tag:
    [Codec(name=..., kind=Marker, to_primitive=lambda m: None,
           from_primitive=lambda body: Marker())]. *)
Definition Marker : value := VObj "Marker" VNone.
Definition marker_codec (name : string) : Codec.t :=
  Codec.mk name (KClass "Marker") (fun _ => Ok VNone) (fun _ => Ok Marker).

(** A second codec for [UUID] under the name [uuid], writing the text
    with a prefix. *)
Definition urn_codec : Codec.t :=
  Codec.mk "uuid" (KClass "UUID")
    (fun obj =>
       match obj with
       | VObj _ (VStr s) => Ok (VStr ("urn:uuid:" ++ s))
       | _ => Raise (Unmodelled "str() of a float, list, dict or instance")
       end)
    (fun body =>
       match body with
       | VStr s => Ok (VObj "UUID" (VStr (substring 9 (String.length s - 9) s)))
       | _ => Raise (TypeError "a string is required")
       end).

(** The datetime codec of the tests under a name with a hyphen. *)
Definition hyphen_codec : Codec.t :=
  Codec.mk "date-time" (KClass "datetime") state_str
    (construct_from_str "datetime").

Definition uid : value := VObj "UUID" (VStr "152e4227-6852-4f8e-912d-bd75478c7eaa").
Definition dt : value := VObj "datetime" (VStr "2019-02-03T01:23:45.012300").

(** ** Vocabulary of the properties *)

(** Every character of [s] is a word character. *)
Fixpoint all_word (s : string) : bool :=
  match s with
  | EmptyString => true
  | String c rest => is_word c && all_word rest
  end.

(** [s] begins with a word character. *)
Definition starts_with_word (s : string) : bool :=
  match s with
  | EmptyString => false
  | String c _ => is_word c
  end.

(** [s] has no line feed. *)
Fixpoint no_newline (s : string) : bool :=
  match s with
  | EmptyString => true
  | String c rest => negb (Ascii.eqb c "010") && no_newline rest
  end.


(** [visits t u]: decoding the tree [t] gets to decode [u] as a value,
    unless an exception ends the walk before.  Elements of sequences,
    values of mappings without the type key and the payload under the
    value key of a mapping with the type key are visited; the other
    entries of a mapping with the type key are not. *)
Inductive visits : value -> value -> Prop :=
| visits_here (t : value) : visits t t
| visits_element (items : list value) (x u : value) :
    In x items -> visits x u -> visits (VList items) u
| visits_value (items : list (value * value)) (k v u : value) :
    dict_contains (VStr _type_key) items = false ->
    In (k, v) items -> visits v u -> visits (VDict items) u
| visits_payload (items : list (value * value)) (v u : value) :
    dict_contains (VStr _type_key) items = true ->
    dict_get (VStr _value_key) items = Some v ->
    visits v u -> visits (VDict items) u.

(** [visits_key t k]: decoding [t] gets to decode [k] as the key of a
    mapping without the type key. *)
Definition visits_key (t k : value) : Prop :=
  exists items v,
    visits t (VDict items)
    /\ dict_contains (VStr _type_key) items = false
    /\ In (k, v) items.

(** [name] is not a key of the by-name index. *)
Definition unregistered_name (self : Serializer) (name : string) : Prop :=
  assoc_get String.eqb name (_by_name self) = None.

(** The tagged scalars [$<name>] and [$<name>:<body>]. *)
Definition tagged_scalar (name s : string) : Prop :=
  s = (_type_char ++ name)%string
  \/ exists body, s = (_type_char ++ name ++ ":" ++ body)%string.

(** [u] is a tagged value that names the codec [name], which the registry
    does not have: a tagged scalar whose name is made of word characters,
    or a mapping whose type key holds the name. *)
Definition unknown_tag (self : Serializer) (name : string) (u : value) : Prop :=
  unregistered_name self name
  /\ ((exists s, u = VStr s /\ tagged_scalar name s
                 /\ name <> "" /\ all_word name = true)
      \/ (exists items, u = VDict items
                 /\ dict_get (VStr _type_key) items = Some (VStr name))).

(** The kinds [inner] of [to_primitive] handles before it looks at the
    registry: mappings, sequences and integers. *)
Definition handled_before_registry (k : kind) : bool :=
  match k with
  | KDict | KList | KInt => true
  | _ => false
  end.

(** [s.startswith((self._type_char, self._escape_char))] *)
Definition special (s : string) : bool :=
  startswith _type_char s || startswith _escape_char s.

(** The form in which a string without codec is stored. *)
Definition escaped (s : string) : string :=
  if special s then (_escape_char ++ s)%string else s.

(** A string that goes through the body of a tagged scalar as it is: not
    empty, on one line, and not one that the encoder escapes. *)
Definition plain_body (s : string) : Prop :=
  s <> "" /\ no_newline s = true /\ special s = false.

(** A string key that the encoder escapes or passes through. *)
Definition plain_key (self : Serializer) (s : string) : Prop :=
  special s = true \/ by_kind self KStr = None.

(** A value whose transformed form is not a string: a mapping, a
    sequence, an integer, a value other than a string whose kind has no
    codec, or a value whose codec returns such a value. *)
Inductive nonstring_form (self : Serializer) : value -> Prop :=
| nonstring_handled (x : value) :
    handled_before_registry (py_type x) = true -> nonstring_form self x
| nonstring_unregistered (x : value) :
    handled_before_registry (py_type x) = false ->
    by_kind self (py_type x) = None ->
    py_type x <> KStr ->
    nonstring_form self x
| nonstring_registered (x : value) (name : string) (writer : callable)
    (v : value) :
    handled_before_registry (py_type x) = false ->
    by_kind self (py_type x) = Some (name, writer) ->
    writer x = Ok v -> v <> VNone ->
    nonstring_form self v ->
    nonstring_form self x.

(** The values of the round trip: integers; values whose kind has no
    codec, strings among them; sequences and mappings of such values, the
    mappings with distinct plain string keys; and values of a registered
    kind whose codec is found again under its name and restores the value
    from what the encoder returned, which is one of
    - [None], the name being one or more word characters;
    - a plain body string of a kind without codec, the name being one or
      more word characters;
    - a value of the round trip other than [None] whose transformed form
      is not a string. *)
Inductive faithful (self : Serializer) : value -> Prop :=
| faithful_int (n : Z) : faithful self (VInt n)
| faithful_unregistered (x : value) :
    handled_before_registry (py_type x) = false ->
    by_kind self (py_type x) = None ->
    faithful self x
| faithful_list (items : list value) :
    faithful_all self items -> faithful self (VList items)
| faithful_dict (items : list (value * value)) :
    faithful_items self items -> NoDup (map fst items) ->
    faithful self (VDict items)
| faithful_bare (x : value) (name : string) (writer decode : callable) :
    handled_before_registry (py_type x) = false ->
    by_kind self (py_type x) = Some (name, writer) ->
    writer x = Ok VNone ->
    name <> "" -> all_word name = true ->
    by_name self (VStr name) = Ok decode ->
    decode VNone = Ok x ->
    faithful self x
| faithful_scalar (x : value) (name : string) (writer decode : callable)
    (body : string) :
    handled_before_registry (py_type x) = false ->
    by_kind self (py_type x) = Some (name, writer) ->
    writer x = Ok (VStr body) ->
    by_kind self KStr = None -> plain_body body ->
    name <> "" -> all_word name = true ->
    by_name self (VStr name) = Ok decode ->
    decode (VStr body) = Ok x ->
    faithful self x
| faithful_compound (x : value) (name : string) (writer decode : callable)
    (v : value) :
    handled_before_registry (py_type x) = false ->
    by_kind self (py_type x) = Some (name, writer) ->
    writer x = Ok v -> v <> VNone ->
    faithful self v -> nonstring_form self v ->
    by_name self (VStr name) = Ok decode ->
    decode v = Ok x ->
    faithful self x
with faithful_all (self : Serializer) : list value -> Prop :=
| faithful_all_nil : faithful_all self []
| faithful_all_cons (x : value) (rest : list value) :
    faithful self x -> faithful_all self rest ->
    faithful_all self (x :: rest)
with faithful_items (self : Serializer) : list (value * value) -> Prop :=
| faithful_items_nil : faithful_items self []
| faithful_items_cons (k : string) (v : value) (rest : list (value * value)) :
    plain_key self k -> faithful self v -> faithful_items self rest ->
    faithful_items self ((VStr k, v) :: rest).

Scheme faithful_mut := Minimality for faithful Sort Prop
  with faithful_all_mut := Minimality for faithful_all Sort Prop
  with faithful_items_mut := Minimality for faithful_items Sort Prop.

(** What the round trip says of a value, of the elements of a sequence
    and of the items of a mapping: from some depth on the encoder returns
    one and the same tree, and the decoder takes it back. *)
Definition roundtrip_at (self : Serializer) (x : value) : Prop :=
  exists d0 p,
    (forall depth, d0 <= depth -> to_inner self depth x = Ok p)
    /\ from_inner self p = Ok x.

Definition roundtrip_all (self : Serializer) (items : list value) : Prop :=
  exists d0 ps,
    (forall depth, d0 <= depth ->
       list_map (to_inner self depth) items = Ok ps)
    /\ list_map (from_inner self) ps = Ok items.

Definition roundtrip_items (self : Serializer)
    (items : list (value * value)) : Prop :=
  exists d0 items',
    (forall depth, d0 <= depth ->
       Forall2 (fun kv kv' =>
                  to_filter_dict_keys self (fst kv) = Ok (fst kv')
                  /\ to_inner self depth (snd kv) = Ok (snd kv')
                  /\ hashable (fst kv') = true) items items')
    /\ Forall2 (fun kv' kv =>
                  from_filter_dict_keys self (fst kv') = Ok (fst kv)
                  /\ from_inner self (snd kv') = Ok (snd kv)
                  /\ hashable (fst kv) = true) items' items
    /\ Forall2 (fun kv kv' =>
                  exists s, fst kv = VStr s /\ fst kv' = VStr (escaped s))
         items items'.

(** A tree that carries no marker: scalars, strings that begin with
    neither marker, instances, sequences of such trees and mappings of
    such trees under distinct string keys that begin with neither
    marker. *)
Inductive plain_tree : value -> Prop :=
| plain_none : plain_tree VNone
| plain_bool (b : bool) : plain_tree (VBool b)
| plain_int (n : Z) : plain_tree (VInt n)
| plain_float (bits : Z) : plain_tree (VFloat bits)
| plain_str (s : string) : special s = false -> plain_tree (VStr s)
| plain_obj (cls : string) (state : value) : plain_tree (VObj cls state)
| plain_list (items : list value) :
    plain_all items -> plain_tree (VList items)
| plain_dict (items : list (value * value)) :
    plain_items items -> NoDup (map fst items) -> plain_tree (VDict items)
with plain_all : list value -> Prop :=
| plain_all_nil : plain_all []
| plain_all_cons (x : value) (rest : list value) :
    plain_tree x -> plain_all rest -> plain_all (x :: rest)
with plain_items : list (value * value) -> Prop :=
| plain_items_nil : plain_items []
| plain_items_cons (k : string) (v : value) (rest : list (value * value)) :
    special k = false -> plain_tree v -> plain_items rest ->
    plain_items ((VStr k, v) :: rest).

Scheme plain_tree_mut := Minimality for plain_tree Sort Prop
  with plain_all_mut := Minimality for plain_all Sort Prop
  with plain_items_mut := Minimality for plain_items Sort Prop.

(** [encodes_through self t u]: encoding [t] gets to encode [u], as an
    element of a sequence, as a value of a mapping, or as what the
    encoder of a codec returned. *)
Inductive encodes_through (self : Serializer) : value -> value -> Prop :=
| through_here (t : value) : encodes_through self t t
| through_element (items : list value) (x u : value) :
    In x items -> encodes_through self x u ->
    encodes_through self (VList items) u
| through_value (items : list (value * value)) (k v u : value) :
    In (k, v) items -> encodes_through self v u ->
    encodes_through self (VDict items) u
| through_codec (x : value) (name : string) (writer : callable) (v u : value) :
    handled_before_registry (py_type x) = false ->
    by_kind self (py_type x) = Some (name, writer) ->
    writer x = Ok v -> v <> VNone ->
    encodes_through self v u ->
    encodes_through self x u.

(** The last codec of the list that satisfies [test]. *)
Definition last_codec (test : Codec.t -> bool) (cs : list Codec.t)
  : option Codec.t :=
  find test (rev cs).

(** A text format for trees that are one string: the text is the string
    itself. *)
Definition text_of_str (p : value) : result string :=
  match p with
  | VStr s => Ok s
  | _ => Raise (TypeError "not a string")
  end.
Definition str_of_text (text : string) : result value := Ok (VStr text).

(** [Codec(name='str', kind=str, to_primitive=str, from_primitive=str)]:
    a codec whose encoder returns a value of the kind of the codec. *)
Definition str_codec : Codec.t :=
  Codec.mk "str" KStr
    (fun obj => s <- percent_s obj ;; Ok (VStr s))
    (fun body => s <- percent_s body ;; Ok (VStr s)).

(** A codec for [str] that writes a string as the list of its code
    points:
    [Codec(name='codes', kind=str,
           to_primitive=lambda s: [ord(c) for c in s],
           from_primitive=lambda l: ''.join(chr(n) for n in l))]. *)
Fixpoint str_of_codes (codes : list value) : result string :=
  match codes with
  | [] => Ok EmptyString
  | VInt n :: rest =>
      s <- str_of_codes rest ;;
      Ok (String (ascii_of_N (Z.to_N n)) s)
  | _ => Raise (TypeError "an integer is required")
  end.

Definition codes_codec : Codec.t :=
  Codec.mk "codes" KStr
    (fun obj =>
       match obj with
       | VStr s =>
           Ok (VList (map (fun c => VInt (Z.of_N (N_of_ascii c)))
                        (list_ascii_of_string s)))
       | _ => Raise (TypeError "a string is required")
       end)
    (fun l =>
       match l with
       | VList codes => s <- str_of_codes codes ;; Ok (VStr s)
       | _ => Raise (TypeError "a list is required")
       end).

(** How deep the sequences and mappings of a tree are nested, the tree
    itself counted: the number of nested calls of [inner] that walking
    the whole tree takes. *)
Fixpoint nesting (v : value) : nat :=
  match v with
  | VList items =>
      S ((fix deepest (l : list value) : nat :=
            match l with
            | [] => 0
            | x :: l' => Nat.max (nesting x) (deepest l')
            end) items)
  | VDict items =>
      S ((fix deepest (l : list (value * value)) : nat :=
            match l with
            | [] => 0
            | (_, x) :: l' => Nat.max (nesting x) (deepest l')
            end) items)
  | _ => 1
  end.


(** A builtin scalar other than a string. *)
Definition scalar_not_str (v : value) : bool :=
  match v with
  | VNone | VBool _ | VInt _ | VFloat _ => true
  | _ => false
  end.


(** * Properties *)

(** ** Keys and strings *)

Lemma kind_eqb_eq (a b : kind) : kind_eqb a b = true <-> a = b.
Proof.
  destruct a, b; simpl; try (split; [discriminate | congruence]);
    try (split; reflexivity).
  rewrite String.eqb_eq. split; congruence.
Qed.

Lemma kind_eqb_refl (a : kind) : kind_eqb a a = true.
Proof. now apply kind_eqb_eq. Qed.

Lemma kind_eqb_neq (a b : kind) : kind_eqb a b = false <-> a <> b.
Proof.
  rewrite <- kind_eqb_eq. destruct (kind_eqb a b); split; congruence.
Qed.

Section AssocFacts.
Context {K V : Type} (eqb : K -> K -> bool).
Hypothesis eqb_spec : forall a b, eqb a b = true <-> a = b.

Lemma assoc_get_set_same (k : K) (v : V) (m : list (K * V)) :
  assoc_get eqb k (assoc_set eqb k v m) = Some v.
Proof.
  induction m as [|[k' v'] m IH]; simpl.
  - now rewrite (proj2 (eqb_spec k k) eq_refl).
  - destruct (eqb k' k) eqn:E; simpl; now rewrite E.
Qed.

Lemma assoc_get_set_other (k k0 : K) (v : V) (m : list (K * V)) :
  k0 <> k ->
  assoc_get eqb k (assoc_set eqb k0 v m) = assoc_get eqb k m.
Proof.
  intros Hne. induction m as [|[k' v'] m IH]; simpl.
  - destruct (eqb k0 k) eqn:E; [|reflexivity].
    apply eqb_spec in E. contradiction.
  - destruct (eqb k' k0) eqn:E0; simpl.
    + apply eqb_spec in E0. subst k'.
      destruct (eqb k0 k) eqn:E; [|reflexivity].
      apply eqb_spec in E. contradiction.
    + now rewrite IH.
Qed.

(** Building an index by assignment: the entry of a codec survives
    whatever was assigned before it, as long as no later codec has its
    key. *)
Lemma index_last_wins {C : Type} (key : C -> K) (val : C -> V)
    (post : list C) (c : C) (m : list (K * V)) :
  Forall (fun c' => key c' <> key c) post ->
  assoc_get eqb (key c)
    (fold_left (fun m c' => assoc_set eqb (key c') (val c') m)
       post (assoc_set eqb (key c) (val c) m))
  = Some (val c).
Proof.
  intros Hpost.
  assert (G : forall m0, assoc_get eqb (key c) m0 = Some (val c) ->
    assoc_get eqb (key c)
      (fold_left (fun m c' => assoc_set eqb (key c') (val c') m) post m0)
    = Some (val c)).
  { induction Hpost as [|c' post Hc' _ IH]; intros m0 Hm0; simpl.
    - exact Hm0.
    - apply IH. now rewrite assoc_get_set_other. }
  apply G, assoc_get_set_same.
Qed.
End AssocFacts.

Lemma append_empty_r (s : string) : (s ++ "")%string = s.
Proof. induction s as [|c s IH]; simpl; [reflexivity | now rewrite IH]. Qed.


Lemma startswith_cons (c d : ascii) (rest : string) :
  startswith (String c EmptyString) (String d rest) = Ascii.eqb c d.
Proof.
  unfold startswith; simpl.
  destruct (ascii_dec c d) as [->|Hne].
  - rewrite Ascii.eqb_refl. now destruct rest.
  - symmetry. now apply Ascii.eqb_neq.
Qed.

(** ** The tests of the repository *)

Example test_uuid :
  to_primitive test_serializer 2 uid
    = Ok (VStr "$uuid:152e4227-6852-4f8e-912d-bd75478c7eaa")
  /\ from_primitive test_serializer
       (VStr "$uuid:152e4227-6852-4f8e-912d-bd75478c7eaa") = Ok uid.
Proof. split; reflexivity. Qed.

Example test_mytype :
  let my_obj := MyType (VStr "hello") (VFloat 4614253070214989087)
                  (VList [VStr "world"]) in
  let prim := VDict [(VStr "$t", VStr "mytype");
                     (VStr "v", VList [VStr "hello";
                                       VFloat 4614253070214989087;
                                       VList [VStr "world"]])] in
  to_primitive test_serializer 4 my_obj = Ok prim
  /\ from_primitive test_serializer prim = Ok my_obj.
Proof. split; reflexivity. Qed.

Example test_complex :
  let my_obj :=
    MyType (VStr "hello")
      (MyType dt uid
         (VDict [(VStr "foo",
                  MyType VNone (VInt 1)
                    (VList [MyType (VStr "a") (VStr "b") (VStr "c")]));
                 (VStr "bar", MyType (VInt 1) (VInt 2) (VInt 3))]))
      VNone in
  let tagged v := VDict [(VStr "$t", VStr "mytype"); (VStr "v", v)] in
  let as_primitives :=
    tagged (VList [
      VStr "hello";
      tagged (VList [
        VStr "$dt:2019-02-03T01:23:45.012300";
        VStr "$uuid:152e4227-6852-4f8e-912d-bd75478c7eaa";
        VDict [(VStr "foo",
                tagged (VList [VNone; VInt 1;
                  VList [tagged (VList [VStr "a"; VStr "b"; VStr "c"])]]));
               (VStr "bar", tagged (VList [VInt 1; VInt 2; VInt 3]))]]);
      VNone]) in
  to_primitive test_serializer 12 my_obj = Ok as_primitives
  /\ from_primitive test_serializer as_primitives = Ok my_obj.
Proof. split; vm_compute; reflexivity. Qed.

(** ** The registry *)

Lemma by_kind_last_wins (pre post : list Codec.t) (c : Codec.t) enc dec :
  Forall (fun c' => Codec.kind c' <> Codec.kind c) post ->
  by_kind (Serializer__init__ (pre ++ c :: post) enc dec) (Codec.kind c)
  = Some (Codec.name c, Codec.to_primitive c).
Proof.
  intros Hpost. unfold by_kind; simpl.
  rewrite fold_left_app; simpl.
  apply (index_last_wins kind_eqb kind_eqb_eq Codec.kind
           (fun c => (Codec.name c, Codec.to_primitive c)) post c _ Hpost).
Qed.

Lemma by_name_last_wins (pre post : list Codec.t) (c : Codec.t) enc dec :
  Forall (fun c' => Codec.name c' <> Codec.name c) post ->
  by_name (Serializer__init__ (pre ++ c :: post) enc dec) (VStr (Codec.name c))
  = Ok (Codec.from_primitive c).
Proof.
  intros Hpost. unfold by_name; simpl.
  rewrite fold_left_app; simpl.
  now rewrite (index_last_wins String.eqb String.eqb_eq Codec.name
                 Codec.from_primitive post c _ Hpost).
Qed.

(** C8.  Building a serializer from codecs [.. c1 .. c2 ..] never fails:
    [Serializer__init__] is a total function that keeps the list as given.
    When [c1] and [c2] have the same kind (and no codec after [c2] has it),
    the by-kind index answers with the name and encoder of [c2]; when they
    have the same name (and no codec after [c2] has it), the by-name index
    answers with the decoder of [c2].  The later codec overwrites the
    earlier one. *)
Theorem duplicate_codec_later_wins
    (l0 l1 l2 : list Codec.t) (c1 c2 : Codec.t) enc dec :
  let cs := l0 ++ c1 :: l1 ++ c2 :: l2 in
  let self := Serializer__init__ cs enc dec in
  codecs self = cs
  /\ (Codec.kind c1 = Codec.kind c2 ->
      Forall (fun c => Codec.kind c <> Codec.kind c2) l2 ->
      by_kind self (Codec.kind c1)
      = Some (Codec.name c2, Codec.to_primitive c2))
  /\ (Codec.name c1 = Codec.name c2 ->
      Forall (fun c => Codec.name c <> Codec.name c2) l2 ->
      by_name self (VStr (Codec.name c1)) = Ok (Codec.from_primitive c2)).
Proof.
  intros cs self. split; [reflexivity|].
  assert (Hcs : cs = (l0 ++ c1 :: l1) ++ c2 :: l2).
  { unfold cs. now rewrite <- app_assoc. }
  split; intros Heq Hpost; rewrite Heq; unfold self; rewrite Hcs.
  - now apply by_kind_last_wins.
  - now apply by_name_last_wins.
Qed.

Lemma duplicate_codec_later_wins_witness :
  let self :=
    Serializer__init__ [uuid_codec; dt_codec; urn_codec] json_dumps json_loads
  in
  by_kind self (KClass "UUID") = Some ("uuid", Codec.to_primitive urn_codec)
  /\ by_name self (VStr "uuid") = Ok (Codec.from_primitive urn_codec).
Proof.
  destruct (duplicate_codec_later_wins [] [dt_codec] [] uuid_codec urn_codec
              json_dumps json_loads) as [_ [Hk Hn]].
  split; [apply Hk | apply Hn]; solve [reflexivity | constructor].
Defined.

(** ** The encode path on scalars *)

(** C4.  A value whose exact kind is [int] is returned unchanged by
    [to_primitive], whatever the registry holds: the branch is taken
    before [by_kind] is looked at, so a codec registered for [int] is
    never called on it. *)
Theorem int_bypasses_registry (self : Serializer) (depth : nat) (obj : value) :
  py_type obj = KInt ->
  to_primitive self (S depth) obj = Ok obj.
Proof.
  destruct obj; simpl; intros H; try discriminate. reflexivity.
Qed.

Lemma int_bypasses_registry_witness :
  by_kind (Serializer__init__ [int_codec] json_dumps json_loads) KInt
    = Some ("int", Codec.to_primitive int_codec)
  /\ to_primitive (Serializer__init__ [int_codec] json_dumps json_loads)
       1 (VInt 7) = Ok (VInt 7).
Proof.
  split; [reflexivity|].
  apply (int_bypasses_registry _ 0 (VInt 7)). reflexivity.
Defined.

Lemma to_inner_unregistered_str (self : Serializer) (depth : nat) (s : string) :
  by_kind self KStr = None ->
  to_inner self (S depth) (VStr s)
  = if startswith _type_char s || startswith _escape_char s
    then Ok (VStr (_escape_char ++ s)) else Ok (VStr s).
Proof. intros H. simpl. now rewrite H. Qed.

Lemma from_inner_escaped (self : Serializer) (rest : string) :
  from_inner self (VStr (_escape_char ++ rest)) = Ok (VStr rest).
Proof. simpl. now destruct rest. Qed.

(** C3.  A string of an unregistered kind that begins with [$] or [/] is
    encoded with exactly one [/] in front; decoding any string that begins
    with [/] removes that one character and returns the rest as it is,
    whatever it looks like; so encoding and then decoding gives back the
    original string. *)
Theorem escape_one_layer (self : Serializer) (depth : nat) (s : string) :
  by_kind self KStr = None ->
  startswith "$" s = true \/ startswith "/" s = true ->
  to_primitive self (S depth) (VStr s) = Ok (VStr ("/" ++ s))
  /\ (forall rest, from_primitive self (VStr ("/" ++ rest)) = Ok (VStr rest))
  /\ (p <- to_primitive self (S depth) (VStr s) ;; from_primitive self p)
     = Ok (VStr s).
Proof.
  intros Hstr Hs.
  assert (Henc : to_primitive self (S depth) (VStr s) = Ok (VStr ("/" ++ s))).
  { unfold to_primitive. rewrite to_inner_unregistered_str by assumption.
    unfold _type_char, _escape_char.
    destruct Hs as [-> | ->]; [reflexivity | now rewrite orb_true_r]. }
  split; [exact Henc|]. split.
  - intros rest. apply from_inner_escaped.
  - rewrite Henc. simpl bind. apply (from_inner_escaped self s).
Qed.

Lemma escape_one_layer_witness :
  to_primitive test_serializer 1 (VStr "$not_a_real_tag")
    = Ok (VStr "/$not_a_real_tag")
  /\ from_primitive test_serializer (VStr "/$not_a_real_tag")
    = Ok (VStr "$not_a_real_tag")
  /\ to_primitive test_serializer 1 (VStr "//") = Ok (VStr "///")
  /\ from_primitive test_serializer (VStr "///") = Ok (VStr "//").
Proof.
  destruct (escape_one_layer test_serializer 0 "$not_a_real_tag")
    as [H1 [H2 _]]; [reflexivity | left; reflexivity |].
  destruct (escape_one_layer test_serializer 0 "//")
    as [H3 [H4 _]]; [reflexivity | right; reflexivity |].
  split; [exact H1|]. split; [apply (H2 "$not_a_real_tag")|].
  split; [exact H3 | apply (H4 "//")].
Defined.

(** ** The tag pattern *)

Lemma span_word_app (name tail : string) :
  all_word name = true -> starts_with_word tail = false ->
  span_word (name ++ tail) = (name, tail).
Proof.
  intros Hname Htail. induction name as [|c name IH]; simpl in *.
  - destruct tail as [|d tail]; simpl in *; [reflexivity|].
    now rewrite Htail.
  - apply andb_true_iff in Hname as [Hc Hname].
    now rewrite Hc, IH.
Qed.


Lemma span_word_nil (s : string) :
  fst (span_word s) = "" <-> starts_with_word s = false.
Proof.
  destruct s as [|c s]; simpl; [tauto|].
  destruct (is_word c); [|tauto].
  destruct (span_word s); simpl. split; discriminate.
Qed.

Lemma span_dot_id (s : string) : no_newline s = true -> span_dot s = s.
Proof.
  induction s as [|c s IH]; simpl; [reflexivity|].
  intros H. apply andb_true_iff in H as [Hc Hs].
  destruct (Ascii.eqb c "010"); [discriminate|]. now rewrite IH.
Qed.

(** The groups on some strings, as [re] returns them. *)
Example parser_examples :
  map _typed_string_parser
    ["$uuid:152e"; "$a:b:c"; "$uuid"; "$uuid:"; "$uuid!x"; "$uuidx";
     "$my-type"; "$"; "$!"; "uuid:152e"]
  = [Some ("uuid", Some "152e"); Some ("a", Some "b:c"); Some ("uuid", None);
     Some ("uuid", None); Some ("uuid", None); Some ("uuidx", None);
     Some ("my", None); None; None; None]
  /\ _typed_string_parser
       ("$uuid:a" ++ String "010" "b") = Some ("uuid", Some "a").
Proof. split; reflexivity. Qed.


(** What the two groups are, once the name ends where the word characters
    end. *)
Lemma parser_name_only (name tail : string) :
  name <> "" -> all_word name = true ->
  starts_with_word tail = false -> startswith ":" tail = false ->
  _typed_string_parser (_type_char ++ name ++ tail) = Some (name, None).
Proof.
  intros Hne Hw Htail Hcolon. simpl.
  rewrite span_word_app by assumption.
  destruct name as [|c name]; [congruence|].
  destruct tail as [|d tail]; [reflexivity|].
  rewrite startswith_cons in Hcolon.
  destruct d as [[] [] [] [] [] [] [] []]; try reflexivity.
  discriminate.
Qed.

Lemma parser_name_body (name body : string) :
  name <> "" -> all_word name = true ->
  _typed_string_parser (_type_char ++ name ++ ":" ++ body)
  = Some (name, match span_dot body with
                | EmptyString => None
                | b => Some b
                end).
Proof.
  intros Hne Hw. simpl.
  rewrite (span_word_app name (String ":" body)) by (assumption || reflexivity).
  destruct name as [|c name]; [congruence|].
  destruct (span_dot body); reflexivity.
Qed.

(** ** Exceptions end the decode *)

Lemma from_inner_dict (self : Serializer) (items : list (value * value)) :
  from_inner self (VDict items)
  = match dict_get (VStr _type_key) items with
    | Some tpe =>
        decode <- by_name self tpe ;;
        arg <- apply_at (from_inner self) (VStr _value_key) items ;;
        decode arg
    | None =>
        d <- dict_comprehension (from_filter_dict_keys self)
               (from_inner self) items [] ;;
        Ok (VDict d)
    end.
Proof. reflexivity. Qed.

Lemma list_map_raise (f : callable) (items : list value) (x : value) (e : exn) :
  In x items -> f x = Raise e -> exists e', list_map f items = Raise e'.
Proof.
  induction items as [|y items IH]; intros Hin Hx; [contradiction|].
  simpl. destruct Hin as [-> | Hin].
  - rewrite Hx. simpl. eauto.
  - destruct (f y); simpl; [|eauto].
    destruct (IH Hin Hx) as [e' ->]. simpl. eauto.
Qed.

Lemma dict_comprehension_raise (fk fv : callable)
    (items acc : list (value * value)) (k v : value) :
  In (k, v) items ->
  (exists e, fk k = Raise e) \/ (exists e, fv v = Raise e) ->
  exists e', dict_comprehension fk fv items acc = Raise e'.
Proof.
  revert acc. induction items as [|[k0 v0] items IH]; intros acc Hin Hkv;
    [contradiction|].
  simpl. destruct Hin as [Heq | Hin].
  - inversion Heq; subst k0 v0. destruct Hkv as [[e ->] | [e Hv]].
    + simpl. eauto.
    + destruct (fk k); simpl; [|eauto]. rewrite Hv. simpl. eauto.
  - destruct (fk k0); simpl; [|eauto].
    destruct (fv v0); simpl; [|eauto].
    destruct (hashable a); [|eauto]. now apply IH.
Qed.

Lemma apply_at_get (f : callable) (key : value) (items : list (value * value)) :
  apply_at f key items
  = match dict_get key items with
    | Some v => f v
    | None => Raise (KeyError key)
    end.
Proof.
  induction items as [|[k v] items IH]; simpl; [reflexivity|].
  destruct (value_eqb k key); [reflexivity | exact IH].
Qed.

Lemma dict_contains_get (key : value) (items : list (value * value)) :
  dict_contains key items = false <-> dict_get key items = None.
Proof.
  unfold dict_contains, assoc_mem, dict_get.
  destruct (assoc_get value_eqb key items); split; congruence.
Qed.

(** An exception raised where the walk gets to is an exception of the
    whole decode: nothing on the way catches it. *)
Lemma from_inner_raise_propagates (self : Serializer) (t u : value) :
  visits t u ->
  (exists e, from_inner self u = Raise e) ->
  exists e', from_inner self t = Raise e'.
Proof.
  induction 1 as [t | items x u Hin _ IH | items k v u Hno Hin _ IH
                 | items v u Hin Hv _ IH]; intros Hu.
  - exact Hu.
  - destruct (IH Hu) as [e He].
    destruct (list_map_raise _ items x e Hin He) as [e' He'].
    simpl. rewrite He'. simpl. eauto.
  - destruct (IH Hu) as [e He].
    apply dict_contains_get in Hno. simpl. rewrite Hno.
    destruct (dict_comprehension_raise (from_filter_dict_keys self)
                (from_inner self) items [] k v Hin) as [e' He']; [eauto|].
    rewrite He'. simpl. eauto.
  - destruct (IH Hu) as [e He]. simpl.
    destruct (dict_get (VStr _type_key) items) as [tpe|] eqn:Htpe.
    + destruct (by_name self tpe); simpl; [|eauto].
      rewrite apply_at_get, Hv, He. simpl. eauto.
    + apply dict_contains_get in Htpe. congruence.
Qed.

Lemma from_key_raise_propagates (self : Serializer) (t k : value) :
  visits_key t k ->
  (exists e, from_filter_dict_keys self k = Raise e) ->
  exists e', from_inner self t = Raise e'.
Proof.
  intros (items & v & Hvis & Hno & Hin) Hk.
  apply (from_inner_raise_propagates self t (VDict items) Hvis).
  apply dict_contains_get in Hno. simpl. rewrite Hno.
  destruct (dict_comprehension_raise (from_filter_dict_keys self)
              (from_inner self) items [] k v Hin) as [e' He']; [eauto|].
  rewrite He'. simpl. eauto.
Qed.

(** A string is decoded alike as a value and as a mapping key. *)
Lemma from_key_as_value (self : Serializer) (s : string) :
  from_filter_dict_keys self (VStr s) = from_inner self (VStr s).
Proof. reflexivity. Qed.

(** ** C5: malformed tags *)




(** ** C10: what follows the name of a tag *)

Lemma from_inner_tag (self : Serializer) (rest : string) :
  from_inner self (VStr (_type_char ++ rest))
  = match _typed_string_parser (_type_char ++ rest) with
    | Some (tpe, body) =>
        decode <- by_name self (VStr tpe) ;; decode (group_value body)
    | None => Raise (ValueError "Invalid type on %r" (VStr (_type_char ++ rest)))
    end.
Proof. cbn -[_typed_string_parser]. now destruct rest. Qed.

(** The claim C10 fails when the suffix begins with a word character: the
    name the pattern takes is then longer than the registered one.  Here
    [uuid] is registered, the suffix [x] is not empty and does not begin
    with a colon, and the decode raises [KeyError] for [uuidx]. *)
Lemma suffix_word_char_counterexample :
  by_name test_serializer (VStr "uuid") = Ok (Codec.from_primitive uuid_codec)
  /\ all_word "uuid" = true
  /\ startswith ":" "x" = false
  /\ from_primitive test_serializer (VStr ("$" ++ "uuid" ++ "x"))
     = Raise (KeyError (VStr "uuidx"))
  /\ from_primitive test_serializer (VStr ("$" ++ "uuid" ++ "x"))
     <> Codec.from_primitive uuid_codec VNone.
Proof. repeat split; try reflexivity. discriminate. Qed.

(** C10, amended.  For a string [$<name><suffix>] where [<name>] is one
    or more word characters naming a registered codec and [<suffix>] is
    not empty and begins neither with a colon nor with a word character,
    [from_primitive] raises no exception of its own: the suffix is
    dropped and the result is whatever the decoder of that codec returns,
    or raises, on [None]. *)
Theorem tag_suffix_discarded
    (self : Serializer) (name suffix : string) (decode : callable) :
  name <> "" -> all_word name = true ->
  by_name self (VStr name) = Ok decode ->
  suffix <> "" ->
  startswith ":" suffix = false ->
  starts_with_word suffix = false ->
  from_primitive self (VStr ("$" ++ name ++ suffix)) = decode VNone.
Proof.
  intros Hne Hw Hreg _ Hcolon Hword. unfold from_primitive.
  change "$" with _type_char.
  rewrite from_inner_tag, parser_name_only by assumption.
  now rewrite Hreg.
Qed.

Lemma tag_suffix_discarded_witness :
  from_primitive
    (Serializer__init__ [marker_codec "marker"] json_dumps json_loads)
    (VStr "$marker!ignored") = Ok Marker
  /\ from_primitive test_serializer (VStr "$uuid 152e")
     = Raise (TypeError "a string is required").
Proof.
  split.
  - apply (tag_suffix_discarded _ "marker" "!ignored"
             (Codec.from_primitive (marker_codec "marker")));
      solve [reflexivity | discriminate].
  - apply (tag_suffix_discarded test_serializer "uuid" " 152e"
             (Codec.from_primitive uuid_codec));
      solve [reflexivity | discriminate].
Defined.

(** ** C6: names the registry does not have *)

Lemma by_name_unregistered (self : Serializer) (name : string) :
  unregistered_name self name ->
  by_name self (VStr name) = Raise (KeyError (VStr name)).
Proof. unfold unregistered_name, by_name. now intros ->. Qed.

Lemma from_inner_tagged_scalar (self : Serializer) (name s : string) :
  tagged_scalar name s -> name <> "" -> all_word name = true ->
  exists body,
    from_inner self (VStr s)
    = (decode <- by_name self (VStr name) ;; decode (group_value body)).
Proof.
  intros [-> | [body ->]] Hne Hw.
  - exists None. rewrite from_inner_tag.
    rewrite <- (append_empty_r name) at 1.
    now rewrite parser_name_only.
  - eexists. rewrite from_inner_tag, parser_name_body by assumption.
    reflexivity.
Qed.

Lemma from_inner_unknown_tag (self : Serializer) (name : string) (u : value) :
  unknown_tag self name u ->
  from_inner self u = Raise (KeyError (VStr name)).
Proof.
  intros (Habs & [(s & -> & Htag & Hne & Hw) | (items & -> & Hget)]).
  - destruct (from_inner_tagged_scalar self name s Htag Hne Hw) as [body ->].
    now rewrite by_name_unregistered.
  - rewrite from_inner_dict, Hget. now rewrite by_name_unregistered.
Qed.

(** The claim C6 fails on a tree that holds the unknown tag where the
    decoder never looks: next to the type key and the value key of a
    tagged mapping.  The tag [$nope] names no codec, and the decode
    returns the UUID. *)
Lemma unknown_tag_unvisited_counterexample :
  let tree := VDict [(VStr "$t", VStr "uuid");
                     (VStr "v", VStr "152e4227-6852-4f8e-912d-bd75478c7eaa");
                     (VStr "note", VStr "$nope")] in
  unregistered_name test_serializer "nope"
  /\ tagged_scalar "nope" "$nope"
  /\ In (VStr "note", VStr "$nope")
       match tree with VDict items => items | _ => [] end
  /\ from_primitive test_serializer tree = Ok uid.
Proof.
  repeat split; try reflexivity.
  - left; reflexivity.
  - simpl; auto.
Qed.

(** C6, amended.  When the decoder gets to a tagged scalar [$<name>] or
    [$<name>:<body>] whose name is one or more word characters, or to a
    mapping whose type key holds [<name>], and [<name>] is not in the
    by-name index, then decoding that tagged value raises [KeyError] for
    the name (the code's unknown-codec error), and decoding any tree in
    which it is visited, as a value, or for the scalars as a mapping key,
    ends in an exception, with no result. *)
Theorem unknown_tag_raises (self : Serializer) (name : string) (u : value) :
  unknown_tag self name u ->
  from_primitive self u = Raise (KeyError (VStr name))
  /\ (forall t,
        visits t u \/ (py_type u = KStr /\ visits_key t u) ->
        exists e, from_primitive self t = Raise e).
Proof.
  intros Hu.
  pose proof (from_inner_unknown_tag self name u Hu) as Hraise.
  split; [exact Hraise|].
  intros t [Ht | [Hstr Ht]].
  - apply (from_inner_raise_propagates self t u Ht). eauto.
  - apply (from_key_raise_propagates self t u Ht).
    destruct u; try discriminate. rewrite from_key_as_value. eauto.
Qed.

Lemma unknown_tag_raises_witness :
  from_primitive test_serializer (VStr "$nope:body")
    = Raise (KeyError (VStr "nope"))
  /\ exists e,
       from_primitive test_serializer
         (VDict [(VStr "$t", VStr "uuid");
                 (VStr "v", VList [VStr "152e"; VStr "$nope:body"])])
       = Raise e.
Proof.
  assert (Hu : unknown_tag test_serializer "nope" (VStr "$nope:body")).
  { split; [reflexivity|]. left.
    exists "$nope:body". split; [reflexivity|].
    split; [right; exists "body"; reflexivity|].
    split; [discriminate | reflexivity]. }
  destruct (unknown_tag_raises test_serializer "nope" _ Hu) as [H1 H2].
  split; [exact H1|].
  apply H2. left.
  apply visits_payload with (v := VList [VStr "152e"; VStr "$nope:body"]);
    [reflexivity | reflexivity |].
  apply visits_element with (x := VStr "$nope:body");
    [right; left; reflexivity | apply visits_here].
Defined.

(** ** C2 and C7: values of registered kinds *)

Lemma to_inner_registered
    (self : Serializer) (depth : nat) (obj : value)
    (name : string) (writer : callable) :
  handled_before_registry (py_type obj) = false ->
  by_kind self (py_type obj) = Some (name, writer) ->
  to_inner self (S depth) obj
  = (v <- writer obj ;;
     match v with
     | VNone => Ok (VStr (_type_char ++ name))
     | _ =>
         v' <- to_inner self depth v ;;
         match v' with
         | VStr body => Ok (VStr (_type_char ++ name ++ ":" ++ body))
         | _ => Ok (VDict [(VStr _type_key, VStr name); (VStr _value_key, v')])
         end
     end).
Proof.
  intros Hkind Hreg.
  destruct obj; try discriminate; simpl in *; now rewrite Hreg.
Qed.

(** The claim C2 fails on integers: with a codec registered for [int],
    whose encoder turns 7 into the string [7], [to_primitive] returns the
    integer itself and not the tagged scalar. *)
Lemma registered_int_counterexample :
  let self := Serializer__init__ [int_codec] json_dumps json_loads in
  by_kind self (py_type (VInt 7)) = Some ("int", Codec.to_primitive int_codec)
  /\ Codec.to_primitive int_codec (VInt 7) = Ok (VStr "7")
  /\ to_primitive self 1 (VStr "7") = Ok (VStr "7")
  /\ to_primitive self 2 (VInt 7) = Ok (VInt 7)
  /\ to_primitive self 2 (VInt 7) <> Ok (VStr "$int:7").
Proof. repeat split; try reflexivity. discriminate. Qed.

(** C2, amended.  For a value that is not a mapping, a sequence or an
    integer and whose exact kind has a registered codec, [to_primitive]
    calls the encoder of the codec and, when the result is not [None],
    transforms it in turn: if the transformed result is a string, the
    output is the tagged scalar [$<name>:<that string>]; otherwise it is
    the tagged compound mapping of the type key to the name and the value
    key to that result. *)
Theorem registered_kind_tagged
    (self : Serializer) (depth : nat) (obj v p : value)
    (name : string) (writer : callable) :
  handled_before_registry (py_type obj) = false ->
  by_kind self (py_type obj) = Some (name, writer) ->
  writer obj = Ok v ->
  v <> VNone ->
  to_primitive self depth v = Ok p ->
  to_primitive self (S depth) obj
  = Ok match p with
       | VStr body => VStr ("$" ++ name ++ ":" ++ body)
       | _ => VDict [(VStr "$t", VStr name); (VStr "v", p)]
       end.
Proof.
  unfold to_primitive. intros Hkind Hreg Hw Hv Hp.
  rewrite (to_inner_registered self depth obj name writer Hkind Hreg), Hw.
  simpl bind. destruct v; try congruence; rewrite Hp; destruct p; reflexivity.
Qed.

Lemma registered_kind_tagged_witness :
  to_primitive test_serializer 2 uid
    = Ok (VStr "$uuid:152e4227-6852-4f8e-912d-bd75478c7eaa")
  /\ to_primitive test_serializer 3 (MyType (VInt 1) (VInt 2) (VInt 3))
     = Ok (VDict [(VStr "$t", VStr "mytype");
                  (VStr "v", VList [VInt 1; VInt 2; VInt 3])]).
Proof.
  split.
  - apply (registered_kind_tagged test_serializer 1 uid
             (VStr "152e4227-6852-4f8e-912d-bd75478c7eaa")
             (VStr "152e4227-6852-4f8e-912d-bd75478c7eaa")
             "uuid" (Codec.to_primitive uuid_codec));
      solve [reflexivity | discriminate].
  - apply (registered_kind_tagged test_serializer 2
             (MyType (VInt 1) (VInt 2) (VInt 3))
             (VList [VInt 1; VInt 2; VInt 3])
             (VList [VInt 1; VInt 2; VInt 3])
             "mytype" (Codec.to_primitive mytype_codec));
      solve [reflexivity | discriminate].
Defined.

(** The claim C7 fails for a codec whose name is not made of word
    characters: the encoder of [my-type] returns [None] and its decoder
    restores the marker from [None], [to_primitive] emits [$my-type], and
    [from_primitive] takes [my] for the name and raises [KeyError]. *)
Lemma none_body_name_counterexample :
  let c := marker_codec "my-type" in
  let self := Serializer__init__ [c] json_dumps json_loads in
  by_kind self (py_type Marker) = Some ("my-type", Codec.to_primitive c)
  /\ Codec.to_primitive c Marker = Ok VNone
  /\ Codec.from_primitive c VNone = Ok Marker
  /\ to_primitive self 1 Marker = Ok (VStr "$my-type")
  /\ from_primitive self (VStr "$my-type") = Raise (KeyError (VStr "my")).
Proof. repeat split; reflexivity. Qed.

(** C7, amended.  Let a codec be registered whose kind is not [dict],
    [list] or [int], whose name is one or more word characters, and which
    no later codec of the same kind or of the same name overwrites.  For
    a value of that kind on which its encoder returns [None],
    [to_primitive] emits the tagged scalar [$<name>] without a body, and
    [from_primitive] of [$<name>] is the decoder of that codec applied to
    [None]; so when the decoder restores the value from [None], the value
    round-trips through the no-body tagged scalar. *)
Theorem none_body_roundtrip
    (pre post : list Codec.t) (c : Codec.t) enc dec
    (depth : nat) (obj : value) :
  let self := Serializer__init__ (pre ++ c :: post) enc dec in
  Forall (fun c' => Codec.kind c' <> Codec.kind c) post ->
  Forall (fun c' => Codec.name c' <> Codec.name c) post ->
  py_type obj = Codec.kind c ->
  handled_before_registry (Codec.kind c) = false ->
  Codec.name c <> "" -> all_word (Codec.name c) = true ->
  Codec.to_primitive c obj = Ok VNone ->
  to_primitive self (S depth) obj = Ok (VStr ("$" ++ Codec.name c))
  /\ from_primitive self (VStr ("$" ++ Codec.name c))
     = Codec.from_primitive c VNone
  /\ (Codec.from_primitive c VNone = Ok obj ->
      (p <- to_primitive self (S depth) obj ;; from_primitive self p) = Ok obj).
Proof.
  intros self Hkinds Hnames Hty Hkind Hne Hw Henc.
  assert (Hto : to_primitive self (S depth) obj = Ok (VStr ("$" ++ Codec.name c))).
  { unfold to_primitive.
    rewrite (to_inner_registered self depth obj (Codec.name c)
               (Codec.to_primitive c)).
    - now rewrite Henc.
    - now rewrite Hty.
    - rewrite Hty. now apply by_kind_last_wins. }
  assert (Hfrom : from_primitive self (VStr ("$" ++ Codec.name c))
                  = Codec.from_primitive c VNone).
  { unfold from_primitive. change "$" with _type_char.
    rewrite from_inner_tag.
    rewrite <- (append_empty_r (Codec.name c)) at 1.
    rewrite parser_name_only by (assumption || reflexivity).
    unfold self. now rewrite by_name_last_wins. }
  split; [exact Hto|]. split; [exact Hfrom|].
  intros Hdec. rewrite Hto. cbn [bind]. now rewrite Hfrom.
Qed.

Lemma none_body_roundtrip_witness :
  let self :=
    Serializer__init__ [uuid_codec; marker_codec "marker"] json_dumps json_loads
  in
  to_primitive self 1 Marker = Ok (VStr "$marker")
  /\ from_primitive self (VStr "$marker") = Ok Marker.
Proof.
  destruct (none_body_roundtrip [uuid_codec] [] (marker_codec "marker")
              json_dumps json_loads 0 Marker) as [H1 [H2 _]];
    try solve [reflexivity | discriminate | constructor].
  split; [exact H1 | exact H2].
Defined.

(** ** C9: integer keys *)

Lemma dict_contains_set_keeps (k k2 v : value) (m : list (value * value)) :
  dict_contains k m = true -> dict_contains k (dict_set k2 v m) = true.
Proof.
  unfold dict_contains, assoc_mem, dict_set.
  induction m as [|[k0 v0] m IH]; simpl; [discriminate|].
  destruct (value_eqb k0 k2) eqn:E2; simpl;
    destruct (value_eqb k0 k); auto.
Qed.

Lemma dict_contains_set_str (s : string) (v : value) (m : list (value * value)) :
  dict_contains (VStr s) (dict_set (VStr s) v m) = true.
Proof.
  unfold dict_contains, assoc_mem, dict_set.
  induction m as [|[k0 v0] m IH]; simpl.
  - now rewrite String.eqb_refl.
  - destruct (value_eqb k0 (VStr s)) eqn:E; simpl; rewrite E; auto.
Qed.

(** A string key computed for some item is a key of the finished
    mapping. *)
Lemma dict_comprehension_has_key (fk fv : callable) (s : string)
    (items acc d : list (value * value)) :
  dict_comprehension fk fv items acc = Ok d ->
  dict_contains (VStr s) acc = true
  \/ (exists k, In k (map fst items) /\ fk k = Ok (VStr s)) ->
  dict_contains (VStr s) d = true.
Proof.
  revert acc. induction items as [|[k0 v0] items IH]; intros acc Hd Hs.
  - simpl in Hd. injection Hd as <-.
    destruct Hs as [Hs | (k & [] & _)]. exact Hs.
  - simpl in Hd.
    destruct (fk k0) as [k0'|] eqn:Hk0; simpl in Hd; [|discriminate].
    destruct (fv v0) as [v0'|]; simpl in Hd; [|discriminate].
    destruct (hashable k0'); [|discriminate].
    apply (IH _ Hd).
    destruct Hs as [Hs | (k & [<- | Hin] & Hk)].
    + left. now apply dict_contains_set_keeps.
    + left. simpl in Hk. rewrite Hk0 in Hk. injection Hk as ->.
      apply dict_contains_set_str.
    + right. eauto.
Qed.

Lemma to_key_registered_int
    (self : Serializer) (name : string) (writer : callable)
    (k : Z) (w : value) (txt : string) :
  by_kind self KInt = Some (name, writer) ->
  writer (VInt k) = Ok w -> percent_s w = Ok txt ->
  to_filter_dict_keys self (VInt k)
  = Ok (VStr (_type_char ++ name ++ ":" ++ txt)).
Proof.
  intros Hreg Hw Htxt. unfold to_filter_dict_keys. simpl py_type.
  rewrite Hreg, Hw. cbn [bind]. now rewrite Htxt.
Qed.

(** C9.  The integer fast path is for values only.  With a codec
    registered for [int], an integer key of a mapping is sent through the
    encoder of the codec and becomes the string [$<name>:<encoded>],
    where [<encoded>] is the text of what the encoder returned: this is
    the key of the result for the mapping of [k] alone, and a key of the
    result for every mapping that has the key [k].  The same integer as a
    value of the mapping is left as it is. *)
Theorem int_key_through_codec
    (self : Serializer) (name : string) (writer : callable)
    (k : Z) (w : value) (txt : string) :
  by_kind self KInt = Some (name, writer) ->
  writer (VInt k) = Ok w -> percent_s w = Ok txt ->
  (forall depth,
     to_primitive self (S (S depth)) (VDict [(VInt k, VInt k)])
     = Ok (VDict [(VStr ("$" ++ name ++ ":" ++ txt), VInt k)]))
  /\ (forall depth items items',
        In (VInt k) (map fst items) ->
        to_primitive self depth (VDict items) = Ok (VDict items') ->
        dict_contains (VStr ("$" ++ name ++ ":" ++ txt)) items' = true).
Proof.
  intros Hreg Hw Htxt.
  pose proof (to_key_registered_int self name writer k w txt Hreg Hw Htxt)
    as Hkey.
  split.
  - intros depth. unfold to_primitive.
    cbn [to_inner dict_comprehension]. rewrite Hkey. reflexivity.
  - intros depth items items' Hin Hto. unfold to_primitive in Hto.
    destruct depth as [|depth]; [discriminate|]. cbn [to_inner] in Hto.
    destruct (dict_comprehension (to_filter_dict_keys self)
                (to_inner self depth) items []) as [d|] eqn:Hd;
      [|discriminate].
    simpl in Hto. injection Hto as <-.
    apply (dict_comprehension_has_key _ _ _ _ _ _ Hd).
    right. exists (VInt k). split; [exact Hin | exact Hkey].
Qed.

Lemma int_key_through_codec_witness :
  let self := Serializer__init__ [int_codec] json_dumps json_loads in
  to_primitive self 2 (VDict [(VInt 7, VInt 7)])
    = Ok (VDict [(VStr "$int:7", VInt 7)])
  /\ dict_contains (VStr "$int:7")
       [(VStr "a", VInt 1); (VStr "$int:7", VInt 7)] = true.
Proof.
  intros self.
  destruct (int_key_through_codec self "int" (Codec.to_primitive int_codec)
              7 (VStr "7") "7" eq_refl eq_refl eq_refl) as [H1 H2].
  split.
  - apply (H1 0%nat).
  - apply (H2 2%nat [(VStr "a", VInt 1); (VInt 7, VInt 7)]).
    + simpl; auto.
    + reflexivity.
Defined.

(** ** Equality of keys and fresh keys *)

Lemma value_eqb_eq (a b : value) : value_eqb a b = true -> a = b.
Proof.
  revert b. induction a as [ | x | x | x | x | xs IH | xs IH | c x IH]
    using value_nested_ind; intros b H; destruct b; simpl in H;
    try discriminate.
  - reflexivity.
  - f_equal. now apply Bool.eqb_prop.
  - f_equal. now apply Z.eqb_eq.
  - f_equal. now apply Z.eqb_eq.
  - f_equal. now apply String.eqb_eq.
  - f_equal. revert items H.
    induction IH as [|x xs Hx _ IHxs]; intros [|y ys] H;
      try discriminate; [reflexivity|].
    apply andb_true_iff in H as [Hxy Hrest].
    f_equal; [now apply Hx | now apply IHxs].
  - f_equal. revert items H.
    induction IH as [|[k v] xs [Hk Hv] _ IHxs]; intros [|[k' v'] ys] H;
      try discriminate; [reflexivity|].
    apply andb_true_iff in H as [Hkv Hrest].
    apply andb_true_iff in Hkv as [Hkk Hvv]. simpl in Hk, Hv.
    f_equal; [f_equal; [now apply Hk | now apply Hv] | now apply IHxs].
  - apply andb_true_iff in H as [Hc Hx].
    f_equal; [now apply String.eqb_eq | now apply IH].
Qed.

Lemma dict_get_absent (k : value) (m : list (value * value)) :
  ~ In k (map fst m) -> dict_get k m = None.
Proof.
  unfold dict_get. induction m as [|[k0 v0] m IH]; simpl; intros Hk;
    [reflexivity|].
  destruct (value_eqb k0 k) eqn:E.
  - apply value_eqb_eq in E. tauto.
  - apply IH. tauto.
Qed.

Lemma dict_set_fresh (k v : value) (m : list (value * value)) :
  ~ In k (map fst m) -> dict_set k v m = m ++ [(k, v)].
Proof.
  unfold dict_set. induction m as [|[k0 v0] m IH]; simpl; intros Hk;
    [reflexivity|].
  destruct (value_eqb k0 k) eqn:E.
  - apply value_eqb_eq in E. tauto.
  - rewrite IH by tauto. reflexivity.
Qed.

(** Storing items whose keys are new and distinct appends them in
    order. *)
Lemma store_fresh_items (items acc : list (value * value)) :
  NoDup (map fst (acc ++ items)) ->
  fold_left (fun m kv => dict_set (fst kv) (snd kv) m) items acc
  = acc ++ items.
Proof.
  revert acc. induction items as [|[k v] items IH]; intros acc Hnd; simpl.
  - now rewrite app_nil_r.
  - rewrite dict_set_fresh.
    + rewrite IH; rewrite <- app_assoc; [reflexivity | exact Hnd].
    + rewrite map_app in Hnd. simpl in Hnd.
      apply NoDup_remove_2 in Hnd. intros Hin. apply Hnd.
      apply in_or_app. now left.
Qed.

(** A comprehension whose key and value expressions all return stores
    the computed items one after the other. *)
Lemma dict_comprehension_ok (fk fv : callable)
    (items items' acc : list (value * value)) :
  Forall2 (fun kv kv' => fk (fst kv) = Ok (fst kv')
                         /\ fv (snd kv) = Ok (snd kv')
                         /\ hashable (fst kv') = true) items items' ->
  dict_comprehension fk fv items acc
  = Ok (fold_left (fun m kv => dict_set (fst kv) (snd kv) m) items' acc).
Proof.
  intros H. revert acc.
  induction H as [|[k v] [k' v'] items items' (Hk & Hv & Hh) _ IH];
    intros acc; simpl in *; [reflexivity|].
  rewrite Hk, Hv. cbn [bind]. rewrite Hh. apply IH.
Qed.

(** ** Escaping *)

Lemma special_cons (c : ascii) (rest : string) :
  special (String c rest) = Ascii.eqb "$" c || Ascii.eqb "/" c.
Proof.
  unfold special, _type_char, _escape_char. now rewrite !startswith_cons.
Qed.

Lemma special_escaped (s : string) : special (_escape_char ++ s) = true.
Proof. apply (special_cons "/" s). Qed.

Lemma escaped_inj (a b : string) : escaped a = escaped b -> a = b.
Proof.
  unfold escaped.
  destruct (special a) eqn:Ha, (special b) eqn:Hb; intros H.
  - now injection H.
  - rewrite <- H, special_escaped in Hb. discriminate.
  - rewrite H, special_escaped in Ha. discriminate.
  - exact H.
Qed.

Lemma escaped_not_type_key (s : string) : escaped s <> _type_key.
Proof.
  unfold escaped. destruct (special s) eqn:Hs; intros H.
  - discriminate.
  - subst s. discriminate.
Qed.

Lemma from_inner_escaped_str (self : Serializer) (s : string) :
  from_inner self (VStr (escaped s)) = Ok (VStr s).
Proof.
  unfold escaped. destruct (special s) eqn:Hs.
  - apply from_inner_escaped.
  - destruct s as [|c s]; [reflexivity|].
    rewrite special_cons in Hs. apply orb_false_iff in Hs as [H1 H2].
    cbn [from_inner]. unfold _escape_char, _type_char.
    now rewrite !startswith_cons, H1, H2.
Qed.

Lemma to_key_plain (self : Serializer) (s : string) :
  plain_key self s ->
  to_filter_dict_keys self (VStr s) = Ok (VStr (escaped s)).
Proof.
  unfold to_filter_dict_keys, escaped. fold (special s).
  intros [Hs | Hreg].
  - now rewrite Hs.
  - destruct (special s); [reflexivity|]. simpl py_type. now rewrite Hreg.
Qed.

Lemma to_inner_unregistered (self : Serializer) (depth : nat) (obj : value) :
  handled_before_registry (py_type obj) = false ->
  by_kind self (py_type obj) = None ->
  to_inner self (S depth) obj
  = Ok match obj with
       | VStr s => VStr (escaped s)
       | _ => obj
       end.
Proof.
  intros Hkind Hreg.
  destruct obj; try discriminate; simpl in *; rewrite Hreg; try reflexivity.
  unfold escaped. fold (special s). now destruct (special s).
Qed.

(** ** Deeper recursion changes no result *)

Lemma list_map_mono (f g : callable) (items l : list value) :
  (forall x p, f x = Ok p -> g x = Ok p) ->
  list_map f items = Ok l -> list_map g items = Ok l.
Proof.
  intros Hfg. revert l. induction items as [|x items IH]; intros l H;
    simpl in *; [exact H|].
  destruct (f x) as [y|] eqn:Hx; simpl in H; [|discriminate].
  rewrite (Hfg _ _ Hx). cbn [bind].
  destruct (list_map f items) as [ys|]; simpl in H; [|discriminate].
  now rewrite (IH ys eq_refl).
Qed.

Lemma dict_comprehension_mono (fk f g : callable)
    (items acc d : list (value * value)) :
  (forall x p, f x = Ok p -> g x = Ok p) ->
  dict_comprehension fk f items acc = Ok d ->
  dict_comprehension fk g items acc = Ok d.
Proof.
  intros Hfg. revert acc. induction items as [|[k v] items IH]; intros acc H;
    simpl in *; [exact H|].
  destruct (fk k) as [k'|]; simpl in *; [|discriminate].
  destruct (f v) as [v'|] eqn:Hv; simpl in H; [|discriminate].
  rewrite (Hfg _ _ Hv). cbn [bind].
  destruct (hashable k'); [now apply IH | discriminate].
Qed.

Lemma to_inner_list (self : Serializer) (depth : nat) (items : list value) :
  to_inner self (S depth) (VList items)
  = (l <- list_map (to_inner self depth) items ;; Ok (VList l)).
Proof. reflexivity. Qed.

Lemma to_inner_dict (self : Serializer) (depth : nat)
    (items : list (value * value)) :
  to_inner self (S depth) (VDict items)
  = (d <- dict_comprehension (to_filter_dict_keys self)
            (to_inner self depth) items [] ;;
     Ok (VDict d)).
Proof. reflexivity. Qed.

Lemma to_inner_mono (self : Serializer) (depth : nat) (obj p : value) :
  to_inner self depth obj = Ok p -> to_inner self (S depth) obj = Ok p.
Proof.
  revert obj p. induction depth as [|depth IH]; intros obj p H;
    [discriminate|].
  destruct (handled_before_registry (py_type obj)) eqn:Hkind.
  - destruct obj; try discriminate.
    + exact H.
    + rewrite to_inner_list in H |- *.
      destruct (list_map (to_inner self depth) items) as [l|] eqn:Hl;
        [|discriminate].
      now rewrite (list_map_mono _ _ _ _ IH Hl).
    + rewrite to_inner_dict in H |- *.
      destruct (dict_comprehension (to_filter_dict_keys self)
                  (to_inner self depth) items []) as [d|] eqn:Hd;
        [|discriminate].
      now rewrite (dict_comprehension_mono _ _ _ _ _ _ IH Hd).
  - destruct (by_kind self (py_type obj)) as [[name writer]|] eqn:Hreg.
    + rewrite (to_inner_registered _ _ _ _ _ Hkind Hreg) in H.
      rewrite (to_inner_registered _ _ _ _ _ Hkind Hreg).
      destruct (writer obj) as [v|]; [|exact H]. cbn [bind] in H |- *.
      destruct v; try exact H;
        match type of H with
        | context [to_inner self depth ?v] =>
            destruct (to_inner self depth v) as [v'|] eqn:Hv;
              [rewrite (IH _ _ Hv); exact H | discriminate]
        end.
    + rewrite (to_inner_unregistered _ _ _ Hkind Hreg) in H.
      now rewrite (to_inner_unregistered _ _ _ Hkind Hreg).
Qed.

Lemma to_inner_le (self : Serializer) (d d' : nat) (obj p : value) :
  d <= d' -> to_inner self d obj = Ok p -> to_inner self d' obj = Ok p.
Proof.
  induction 1 as [|d' _ IH]; intros H; [exact H|].
  now apply to_inner_mono, IH.
Qed.

(** The transformed form of such a value is not a string. *)
Lemma nonstring_form_sound (self : Serializer) (x : value) :
  nonstring_form self x ->
  forall depth p body, to_inner self depth x = Ok p -> p <> VStr body.
Proof.
  induction 1 as [x Hkind | x Hkind Hreg Hstr
                 | x name writer v Hkind Hreg Hw Hv _ IH];
    intros [|depth] p body H; try discriminate.
  - destruct x; try discriminate.
    + injection H as <-. discriminate.
    + rewrite to_inner_list in H.
      destruct (list_map (to_inner self depth) items); [|discriminate].
      injection H as <-. discriminate.
    + rewrite to_inner_dict in H.
      destruct (dict_comprehension (to_filter_dict_keys self)
                  (to_inner self depth) items []); [|discriminate].
      injection H as <-. discriminate.
  - rewrite (to_inner_unregistered _ _ _ Hkind Hreg) in H.
    injection H as <-. destruct x; simpl in Hstr; congruence.
  - rewrite (to_inner_registered _ _ _ _ _ Hkind Hreg), Hw in H.
    cbn [bind] in H.
    destruct (to_inner self depth v) as [v'|] eqn:Hv';
      [|destruct v; try congruence; discriminate].
    specialize (IH depth v').
    destruct v; try congruence; cbn [bind] in H;
      destruct v'; try (injection H as <-; discriminate);
      exfalso; eapply IH; eauto.
Qed.

(** ** C1: the round trip *)

Lemma escaped_keys_nodup (items items' : list (value * value)) :
  Forall2 (fun kv kv' => exists s, fst kv = VStr s /\ fst kv' = VStr (escaped s))
    items items' ->
  NoDup (map fst items) -> NoDup (map fst items').
Proof.
  induction 1 as [|kv kv' items items' (s & Hk & Hk') Hrest IH]; simpl;
    intros Hnd; [constructor|].
  inversion Hnd as [|? ? Hnotin Hnd']; subst.
  constructor; [|now apply IH].
  intros Hin. apply Hnotin. clear IH Hnd Hnd' Hnotin.
  induction Hrest as [|kv0 kv0' items items' (s0 & Hk0 & Hk0') _ IH];
    simpl in *; [contradiction|].
  destruct Hin as [Heq | Hin]; [left | right; now apply IH].
  rewrite Hk, Hk0. rewrite Hk', Hk0' in Heq.
  injection Heq as Heq. apply escaped_inj in Heq. now subst.
Qed.

Lemma escaped_keys_no_type_key (items items' : list (value * value)) :
  Forall2 (fun kv kv' => exists s, fst kv = VStr s /\ fst kv' = VStr (escaped s))
    items items' ->
  ~ In (VStr _type_key) (map fst items').
Proof.
  induction 1 as [|kv kv' items items' (s & _ & Hk') _ IH]; simpl;
    [tauto|].
  intros [Heq | Hin]; [|tauto].
  rewrite Hk' in Heq. injection Heq as Heq.
  now apply escaped_not_type_key in Heq.
Qed.

Lemma from_inner_tagged_compound (self : Serializer) (name : string)
    (p : value) :
  from_inner self (VDict [(VStr _type_key, VStr name); (VStr _value_key, p)])
  = (decode <- by_name self (VStr name) ;;
     arg <- from_inner self p ;;
     decode arg).
Proof. reflexivity. Qed.

(** Every faithful value is encoded, from some depth on, to a tree that
    the decoder takes back to it. *)
Lemma faithful_roundtrip_at (self : Serializer) (x : value) :
  faithful self x -> roundtrip_at self x.
Proof.
  apply (faithful_mut self (roundtrip_at self) (roundtrip_all self)
           (roundtrip_items self)).
  - (* an integer *)
    intros n. exists 1, (VInt n). split; [|reflexivity].
    intros [|depth] Hd; [lia | reflexivity].
  - (* a kind without codec *)
    intros y Hkind Hreg.
    exists 1, (match y with VStr s => VStr (escaped s) | _ => y end). split.
    + intros [|depth] Hd; [lia|]. now apply to_inner_unregistered.
    + destruct y; try discriminate; try reflexivity.
      apply from_inner_escaped_str.
  - (* a sequence *)
    intros items _ (d0 & ps & Hto & Hfrom).
    exists (S d0), (VList ps). split.
    + intros [|depth] Hd; [lia|].
      rewrite to_inner_list, Hto by lia. reflexivity.
    + cbn [from_inner]. now rewrite Hfrom.
  - (* a mapping *)
    intros items _ (d0 & items' & Hto & Hfrom & Hkeys) Hnd.
    exists (S d0), (VDict items'). split.
    + intros [|depth] Hd; [lia|].
      rewrite to_inner_dict.
      rewrite (dict_comprehension_ok _ _ items items') by (apply Hto; lia).
      rewrite store_fresh_items; [reflexivity|].
      now apply (escaped_keys_nodup items).
    + rewrite from_inner_dict.
      rewrite dict_get_absent by now apply (escaped_keys_no_type_key items).
      rewrite (dict_comprehension_ok _ _ items' items) by exact Hfrom.
      now rewrite store_fresh_items.
  - (* a codec that returns None *)
    intros y name writer decode Hkind Hreg Hw Hne Hword Hname Hdec.
    exists 1, (VStr (_type_char ++ name)). split.
    + intros [|depth] Hd; [lia|].
      now rewrite (to_inner_registered _ _ _ _ _ Hkind Hreg), Hw.
    + rewrite from_inner_tag.
      rewrite <- (append_empty_r name) at 1.
      rewrite parser_name_only by (assumption || reflexivity).
      now rewrite Hname.
  - (* a codec that returns a plain string *)
    intros y name writer decode body Hkind Hreg Hw Hstr (Hbne & Hnl & Hsp)
      Hne Hword Hname Hdec.
    exists 2, (VStr (_type_char ++ name ++ ":" ++ body)). split.
    + intros [|[|depth]] Hd; [lia | lia |].
      rewrite (to_inner_registered _ _ _ _ _ Hkind Hreg), Hw. cbn [bind].
      rewrite (to_inner_unregistered self depth (VStr body))
        by (reflexivity || assumption).
      unfold escaped. rewrite Hsp. reflexivity.
    + rewrite from_inner_tag, parser_name_body by assumption.
      rewrite span_dot_id by assumption. rewrite Hname. cbn [bind].
      destruct body; [congruence | exact Hdec].
  - (* a codec that returns a value with a non-string form *)
    intros y name writer decode v Hkind Hreg Hw Hv _
      (d0 & p & Hto & Hfrom) Hns Hname Hdec.
    exists (S d0), (VDict [(VStr _type_key, VStr name); (VStr _value_key, p)]).
    split.
    + intros [|depth] Hd; [lia|].
      rewrite (to_inner_registered _ _ _ _ _ Hkind Hreg), Hw. cbn [bind].
      pose proof (Hto depth ltac:(lia)) as Hp. rewrite Hp.
      pose proof (nonstring_form_sound self v Hns depth p) as Hnot.
      destruct v; try congruence; cbn [bind];
        destruct p; try reflexivity; exfalso; eapply Hnot; eauto.
    + rewrite from_inner_tagged_compound, Hname. cbn [bind].
      rewrite Hfrom. exact Hdec.
  - (* no element *)
    exists 0, []. split; reflexivity.
  - (* one more element *)
    intros y rest _ (d1 & p & Hto1 & Hfrom1) _ (d2 & ps & Hto2 & Hfrom2).
    exists (Nat.max d1 d2), (p :: ps). split.
    + intros depth Hd. cbn [list_map].
      rewrite Hto1, Hto2 by lia. reflexivity.
    + cbn [list_map]. now rewrite Hfrom1, Hfrom2.
  - (* no item *)
    exists 0, []. repeat split; constructor.
  - (* one more item *)
    intros k v rest Hk _ (d1 & p & Hto1 & Hfrom1)
      _ (d2 & items' & Hto2 & Hfrom2 & Hkeys).
    exists (Nat.max d1 d2), ((VStr (escaped k), p) :: items').
    split; [|split].
    + intros depth Hd. constructor; [|apply Hto2; lia]. cbn [fst snd].
      split; [now apply to_key_plain|]. split; [apply Hto1; lia | reflexivity].
    + constructor; [|exact Hfrom2]. cbn [fst snd].
      rewrite from_key_as_value, from_inner_escaped_str. auto.
    + constructor; [|exact Hkeys]. cbn [fst snd]. eauto.
Qed.

(** The claim C1 fails for a codec whose name is not made of word
    characters.  The encoder and the decoder of the codec [date-time] are
    mutually inverse; the encoder of the tree writes the whole name into
    the tag, and the tag pattern reads it back up to the hyphen, so that
    the decode raises [KeyError] for [date]. *)
Lemma hyphen_name_counterexample :
  let self := Serializer__init__ [hyphen_codec] json_dumps json_loads in
  Codec.to_primitive hyphen_codec dt = Ok (VStr "2019-02-03T01:23:45.012300")
  /\ Codec.from_primitive hyphen_codec (VStr "2019-02-03T01:23:45.012300")
     = Ok dt
  /\ to_primitive self 2 dt
     = Ok (VStr "$date-time:2019-02-03T01:23:45.012300")
  /\ (p <- to_primitive self 2 dt ;; from_primitive self p)
     = Raise (KeyError (VStr "date"))
  /\ (p <- to_primitive self 2 dt ;; from_primitive self p) <> Ok dt.
Proof. repeat split; try reflexivity. discriminate. Qed.

(** Bodies that are not plain are outside the round trip below.  One of
    them: the text [/usr/bin] of a path is escaped on the way in, and the
    decoder of the codec is handed the body with the escape still on. *)
Example escaped_body_not_restored :
  let self := Serializer__init__ [path_codec] json_dumps json_loads in
  let x := VObj "PurePosixPath" (VStr "/usr/bin") in
  Codec.to_primitive path_codec x = Ok (VStr "/usr/bin")
  /\ Codec.from_primitive path_codec (VStr "/usr/bin") = Ok x
  /\ to_primitive self 2 x = Ok (VStr "$path://usr/bin")
  /\ from_primitive self (VStr "$path://usr/bin")
     = Ok (VObj "PurePosixPath" (VStr "//usr/bin")).
Proof. repeat split; reflexivity. Qed.

(** C1, amended.  For every faithful value [x] (integers, scalars
    without codec, sequences, mappings with distinct plain string keys,
    and values of registered kinds whose codec is found again under its
    name, restores the value from its encoding, and returns [None], a
    plain body string or a value with a non-string form), the encoder
    returns a tree from some recursion depth on, and
    [from_primitive(to_primitive(x))] is [x] itself, the items of every
    mapping in their order; and whenever [to_primitive] returns a tree at
    all, [from_primitive] takes it back to [x]. *)
Theorem faithful_roundtrip (self : Serializer) (x : value) :
  faithful self x ->
  (exists d0, forall depth, d0 <= depth ->
     (p <- to_primitive self depth x ;; from_primitive self p) = Ok x)
  /\ (forall depth p,
        to_primitive self depth x = Ok p -> from_primitive self p = Ok x).
Proof.
  intros Hx. destruct (faithful_roundtrip_at self x Hx) as (d0 & p0 & Hto & Hfrom).
  unfold to_primitive, from_primitive. split.
  - exists d0. intros depth Hd. now rewrite (Hto depth Hd).
  - intros depth p Hp.
    pose proof (to_inner_le self depth (Nat.max d0 depth) x p ltac:(lia) Hp)
      as Hp'.
    rewrite (Hto (Nat.max d0 depth)) in Hp' by lia.
    injection Hp' as <-. exact Hfrom.
Qed.

Lemma faithful_roundtrip_witness :
  let x :=
    VDict [(VStr "$id", uid);
           (VStr "xs", VList [VInt 1; VStr "/a";
                              MyType VNone (VFloat 0) (VBool true)])] in
  from_primitive test_serializer
    (VDict [(VStr "/$id", VStr "$uuid:152e4227-6852-4f8e-912d-bd75478c7eaa");
            (VStr "xs",
             VList [VInt 1; VStr "//a";
                    VDict [(VStr "$t", VStr "mytype");
                           (VStr "v", VList [VNone; VFloat 0; VBool true])]])])
  = Ok x.
Proof.
  intros x.
  assert (Hx : faithful test_serializer x).
  { apply faithful_dict.
    - apply faithful_items_cons; [right; reflexivity | |].
      + apply (faithful_scalar test_serializer uid "uuid"
                 (Codec.to_primitive uuid_codec)
                 (Codec.from_primitive uuid_codec)
                 "152e4227-6852-4f8e-912d-bd75478c7eaa");
          try reflexivity; try discriminate.
        split; [discriminate | split; reflexivity].
      + apply faithful_items_cons; [right; reflexivity | | constructor].
        apply faithful_list.
        apply faithful_all_cons; [apply faithful_int|].
        apply faithful_all_cons; [now apply faithful_unregistered|].
        apply faithful_all_cons; [|constructor].
        apply (faithful_compound test_serializer _ "mytype"
                 (Codec.to_primitive mytype_codec)
                 (Codec.from_primitive mytype_codec)
                 (VList [VNone; VFloat 0; VBool true]));
          try reflexivity; try discriminate.
        * apply faithful_list.
          repeat (apply faithful_all_cons;
                  [now apply faithful_unregistered|]).
          constructor.
        * now apply nonstring_handled.
    - simpl. repeat constructor; simpl; intuition discriminate. }
  apply (proj2 (faithful_roundtrip test_serializer x Hx) 5%nat).
  reflexivity.
Defined.


(** * Further properties of the code *)

(** ** The indices of the registry *)

(** Looking for the first match in a list with one more element at its
    end. *)
Lemma find_snoc {A : Type} (test : A -> bool) (l : list A) (last : A) :
  find test (l ++ [last])
  = match find test l with
    | Some found => Some found
    | None => if test last then Some last else None
    end.
Proof.
  induction l as [|x l IH]; simpl; [reflexivity|].
  destruct (test x); [reflexivity | exact IH].
Qed.

Section IndexFacts.
Context {K V : Type} (eqb : K -> K -> bool).
Hypothesis eqb_spec : forall a b, eqb a b = true <-> a = b.

(** An index built by assignment answers with the last entry assigned
    under the key. *)
Lemma index_lookup {C : Type} (key : C -> K) (val : C -> V)
    (cs : list C) (m : list (K * V)) (k : K) :
  assoc_get eqb k
    (fold_left (fun m c => assoc_set eqb (key c) (val c) m) cs m)
  = match find (fun c => eqb (key c) k) (rev cs) with
    | Some c => Some (val c)
    | None => assoc_get eqb k m
    end.
Proof.
  revert m. induction cs as [|c cs IH]; intros m; simpl; [reflexivity|].
  rewrite IH, find_snoc.
  destruct (find (fun c0 => eqb (key c0) k) (rev cs)); [reflexivity|].
  destruct (eqb (key c) k) eqn:E.
  - apply eqb_spec in E. subst k. apply (assoc_get_set_same eqb eqb_spec).
  - apply (assoc_get_set_other eqb eqb_spec).
    intros Heq. apply eqb_spec in Heq. congruence.
Qed.
End IndexFacts.

(** X1.  What the two indices answer: [by_kind] gives the name and the
    encoder of the last codec of that kind, and nothing when no codec has
    the kind; [by_name] gives the decoder of the last codec of that name,
    and raises [KeyError] when no codec has the name. *)
Theorem indices_hold_last_codec (cs : list Codec.t) enc dec :
  let self := Serializer__init__ cs enc dec in
  (forall k,
     by_kind self k
     = match last_codec (fun c => kind_eqb (Codec.kind c) k) cs with
       | Some c => Some (Codec.name c, Codec.to_primitive c)
       | None => None
       end)
  /\ (forall n,
        by_name self (VStr n)
        = match last_codec (fun c => String.eqb (Codec.name c) n) cs with
          | Some c => Ok (Codec.from_primitive c)
          | None => Raise (KeyError (VStr n))
          end).
Proof.
  intros self. split.
  - intros k. unfold by_kind, self, last_codec. simpl.
    apply (index_lookup kind_eqb kind_eqb_eq Codec.kind
             (fun c => (Codec.name c, Codec.to_primitive c)) cs [] k).
  - intros n. unfold by_name, self, last_codec. simpl.
    rewrite (index_lookup String.eqb String.eqb_eq Codec.name
               Codec.from_primitive cs [] n).
    now destruct (find (fun c => String.eqb (Codec.name c) n) (rev cs)).
Qed.

(** ** Mappings with the type key *)

(** X2.  A mapping with the type key is decoded from two entries only,
    the one under the type key and the one under the value key: it
    decodes like the mapping of these two entries alone. *)
Theorem tagged_mapping_two_entries
    (self : Serializer) (items : list (value * value)) (tpe payload : value) :
  dict_get (VStr "$t") items = Some tpe ->
  dict_get (VStr "v") items = Some payload ->
  from_primitive self (VDict items)
  = from_primitive self (VDict [(VStr "$t", tpe); (VStr "v", payload)]).
Proof.
  intros Htpe Hpayload. unfold from_primitive.
  rewrite from_inner_dict. change (VStr _type_key) with (VStr "$t").
  rewrite Htpe, apply_at_get.
  change (VStr _value_key) with (VStr "v"). rewrite Hpayload.
  reflexivity.
Qed.

Lemma tagged_mapping_two_entries_witness :
  from_primitive test_serializer
    (VDict [(VStr "note", VStr "$nope");
            (VStr "v", VStr "152e4227-6852-4f8e-912d-bd75478c7eaa");
            (VStr "$t", VStr "uuid")])
  = Ok uid.
Proof.
  rewrite (tagged_mapping_two_entries test_serializer
             [(VStr "note", VStr "$nope");
              (VStr "v", VStr "152e4227-6852-4f8e-912d-bd75478c7eaa");
              (VStr "$t", VStr "uuid")]
             (VStr "uuid") (VStr "152e4227-6852-4f8e-912d-bd75478c7eaa")
             eq_refl eq_refl).
  reflexivity.
Defined.

(** X3.  A mapping with the type key of a registered codec and without
    the value key raises [KeyError] for the value key; the decoder of the
    codec is not called. *)
Theorem tagged_mapping_without_value
    (self : Serializer) (items : list (value * value))
    (name : string) (decode : callable) :
  dict_get (VStr "$t") items = Some (VStr name) ->
  by_name self (VStr name) = Ok decode ->
  dict_get (VStr "v") items = None ->
  from_primitive self (VDict items) = Raise (KeyError (VStr "v")).
Proof.
  intros Htpe Hname Hpayload. unfold from_primitive.
  rewrite from_inner_dict. change (VStr _type_key) with (VStr "$t").
  rewrite Htpe, Hname. cbn [bind]. rewrite apply_at_get.
  change (VStr _value_key) with (VStr "v"). now rewrite Hpayload.
Qed.

Lemma tagged_mapping_without_value_witness :
  from_primitive test_serializer
    (VDict [(VStr "$t", VStr "uuid"); (VStr "value", VStr "152e")])
  = Raise (KeyError (VStr "v")).
Proof.
  apply (tagged_mapping_without_value test_serializer _ "uuid"
           (Codec.from_primitive uuid_codec)); reflexivity.
Defined.

(** ** Keys of decoded mappings *)

Lemma dict_comprehension_app (fk fv : callable)
    (pre rest acc d : list (value * value)) :
  dict_comprehension fk fv pre acc = Ok d ->
  dict_comprehension fk fv (pre ++ rest) acc
  = dict_comprehension fk fv rest d.
Proof.
  revert acc. induction pre as [|[k v] pre IH]; intros acc H; simpl in *.
  - now injection H as <-.
  - destruct (fk k) as [k'|]; simpl in *; [|discriminate].
    destruct (fv v) as [v'|]; simpl in *; [|discriminate].
    destruct (hashable k'); [now apply IH | discriminate].
Qed.

Lemma dict_get_app_none (key : value) (pre rest : list (value * value)) :
  dict_get key (pre ++ rest) = None -> dict_get key pre = None.
Proof.
  unfold dict_get. induction pre as [|[k v] pre IH]; simpl; [reflexivity|].
  destruct (value_eqb k key); [discriminate | exact IH].
Qed.

(** X4.  The decoder asks every key of a mapping without the type key
    whether it starts with a marker.  A key that is [None], a bool, an
    int or a float has no [startswith]: when the items before it decode
    and its own value decodes, the decode of the mapping raises
    [AttributeError] for [startswith] on that key. *)
Theorem non_string_key_raises
    (self : Serializer) (pre rest : list (value * value))
    (k v w r : value) :
  scalar_not_str k = true ->
  dict_get (VStr "$t") (pre ++ (k, v) :: rest) = None ->
  from_primitive self (VDict pre) = Ok r ->
  from_primitive self v = Ok w ->
  from_primitive self (VDict (pre ++ (k, v) :: rest))
  = Raise (AttributeError k "startswith").
Proof.
  unfold from_primitive. intros Hk Hno Hpre Hv.
  assert (Hkey : from_filter_dict_keys self k
                 = Raise (AttributeError k "startswith")).
  { destruct k; try discriminate; reflexivity. }
  rewrite from_inner_dict in Hpre |- *.
  change (VStr _type_key) with (VStr "$t") in Hpre |- *.
  rewrite Hno. rewrite (dict_get_app_none _ _ _ Hno) in Hpre.
  destruct (dict_comprehension (from_filter_dict_keys self)
              (from_inner self) pre []) as [d|] eqn:Hd; [|discriminate].
  rewrite (dict_comprehension_app _ _ pre _ [] d Hd).
  cbn [dict_comprehension]. now rewrite Hkey.
Qed.

Lemma non_string_key_raises_witness :
  from_primitive test_serializer
    (VDict [(VStr "one", VInt 1); (VInt 2, VStr "two"); (VStr "$x", VNone)])
  = Raise (AttributeError (VInt 2) "startswith").
Proof.
  apply (non_string_key_raises test_serializer [(VStr "one", VInt 1)]
           [(VStr "$x", VNone)] (VInt 2) (VStr "two") (VStr "two")
           (VDict [(VStr "one", VInt 1)])); reflexivity.
Defined.

(** X5.  Decoding can merge two keys: the escaped key [/s] and the plain
    key [s] both decode to [s], and the decoded mapping has the one key
    [s] with the value of the later item. *)
Theorem escaped_and_plain_key_merge
    (self : Serializer) (s : string) (v1 v2 w1 w2 : value) :
  special s = false ->
  from_primitive self v1 = Ok w1 ->
  from_primitive self v2 = Ok w2 ->
  from_primitive self (VDict [(VStr ("/" ++ s), v1); (VStr s, v2)])
  = Ok (VDict [(VStr s, w2)]).
Proof.
  unfold from_primitive. intros Hs H1 H2. rewrite from_inner_dict.
  assert (Hs' : s <> _type_key).
  { intros ->. discriminate. }
  apply String.eqb_neq in Hs'.
  assert (Hno : dict_get (VStr _type_key) [(VStr ("/" ++ s), v1); (VStr s, v2)]
                = None).
  { unfold dict_get. cbn [assoc_get value_eqb].
    change (String.eqb ("/" ++ s) _type_key) with false. now rewrite Hs'. }
  rewrite Hno. cbn [dict_comprehension].
  rewrite !from_key_as_value.
  pose proof (from_inner_escaped self s) as Hesc.
  change (_escape_char ++ s)%string with ("/" ++ s)%string in Hesc.
  rewrite Hesc, H1. cbn [bind hashable].
  pose proof (from_inner_escaped_str self s) as Hplain.
  unfold escaped in Hplain. rewrite Hs in Hplain.
  rewrite Hplain, H2. cbn [bind hashable dict_comprehension].
  unfold dict_set. cbn [assoc_set value_eqb]. now rewrite String.eqb_refl.
Qed.

Lemma escaped_and_plain_key_merge_witness :
  from_primitive test_serializer
    (VDict [(VStr "/a", VInt 1); (VStr "a", VInt 2)])
  = Ok (VDict [(VStr "a", VInt 2)]).
Proof.
  apply (escaped_and_plain_key_merge test_serializer "a"
           (VInt 1) (VInt 2) (VInt 1) (VInt 2)); reflexivity.
Defined.

(** ** The body of a tagged scalar *)

Lemma span_dot_line (first rest : string) :
  no_newline first = true ->
  span_dot (first ++ String "010" rest) = first.
Proof.
  induction first as [|c first IH]; simpl; [reflexivity|].
  intros H. apply andb_true_iff in H as [Hc Hfirst].
  destruct (Ascii.eqb c "010"); [discriminate|]. now rewrite IH.
Qed.

(** X6.  What the decoder of a registered codec is called with, for a
    tagged scalar with a colon after the name: the body as it stands when
    it is not empty and has no line feed; [None] when the body is empty,
    as for the tag without colon; and only the first line of a body with
    a line feed, [None] when that line is empty. *)
Theorem tagged_scalar_body
    (self : Serializer) (name : string) (decode : callable) :
  name <> "" -> all_word name = true ->
  by_name self (VStr name) = Ok decode ->
  (forall body, body <> "" -> no_newline body = true ->
     from_primitive self (VStr ("$" ++ name ++ ":" ++ body))
     = decode (VStr body))
  /\ from_primitive self (VStr ("$" ++ name ++ ":")) = decode VNone
  /\ (forall first rest, no_newline first = true ->
        from_primitive self
          (VStr ("$" ++ name ++ ":" ++ first ++ String "010" rest))
        = decode (match first with
                  | EmptyString => VNone
                  | _ => VStr first
                  end)).
Proof.
  intros Hne Hw Hname. unfold from_primitive. change "$" with _type_char.
  split; [|split].
  - intros body Hb Hnl.
    rewrite from_inner_tag, parser_name_body, span_dot_id by assumption.
    rewrite Hname. cbn [bind]. destruct body; [congruence | reflexivity].
  - change (name ++ ":")%string with (name ++ ":" ++ "")%string.
    rewrite from_inner_tag, parser_name_body by assumption.
    now rewrite Hname.
  - intros first rest Hnl.
    rewrite from_inner_tag, parser_name_body, span_dot_line by assumption.
    rewrite Hname. cbn [bind]. now destruct first.
Qed.

Lemma tagged_scalar_body_witness :
  let self :=
    Serializer__init__ [path_codec; marker_codec "marker"]
      json_dumps json_loads in
  from_primitive self (VStr "$path:usr:bin")
    = Ok (VObj "PurePosixPath" (VStr "usr:bin"))
  /\ from_primitive self (VStr "$marker:") = Ok Marker
  /\ from_primitive self (VStr ("$path:" ++ "usr" ++ String "010" "bin"))
    = Ok (VObj "PurePosixPath" (VStr "usr")).
Proof.
  intros self.
  destruct (tagged_scalar_body self "path" (Codec.from_primitive path_codec))
    as [H1 [_ H3]]; try reflexivity; try discriminate.
  destruct (tagged_scalar_body self "marker"
              (Codec.from_primitive (marker_codec "marker")))
    as [_ [H2 _]]; try reflexivity; try discriminate.
  split; [apply (H1 "usr:bin"); [discriminate | reflexivity]|].
  split; [exact H2|].
  apply (H3 "usr" "bin"). reflexivity.
Defined.

(** ** Strings *)

Lemma escaped_not_tag (s : string) : startswith _type_char (escaped s) = false.
Proof.
  unfold escaped. destruct (special s) eqn:Hs; [reflexivity|].
  unfold special in Hs. now apply orb_false_iff in Hs as [H _].
Qed.

(** X7.  Every string of a kind without codec is stored as a string that
    does not begin with the tag marker, whatever the string is, and the
    decoder takes that string back to the original: the decoder never
    takes a string of the user for a tag. *)
Theorem unregistered_string_roundtrip
    (self : Serializer) (depth : nat) (s : string) :
  by_kind self KStr = None ->
  exists stored,
    to_primitive self (S depth) (VStr s) = Ok (VStr stored)
    /\ startswith "$" stored = false
    /\ from_primitive self (VStr stored) = Ok (VStr s).
Proof.
  intros Hstr. exists (escaped s). unfold to_primitive, from_primitive.
  split; [|split].
  - now rewrite (to_inner_unregistered self depth (VStr s)).
  - apply escaped_not_tag.
  - apply from_inner_escaped_str.
Qed.

Lemma unregistered_string_roundtrip_witness :
  exists stored,
    to_primitive test_serializer 1 (VStr "$uuid:152e") = Ok (VStr stored)
    /\ startswith "$" stored = false
    /\ from_primitive test_serializer (VStr stored) = Ok (VStr "$uuid:152e").
Proof.
  apply (unregistered_string_roundtrip test_serializer 0 "$uuid:152e").
  reflexivity.
Defined.

(** X8.  The string that the encoder of a codec returns is itself
    transformed before it becomes the body of the tag, and the decoder
    passes the body on as it is.  So when the encoder returns a one-line
    string that begins with a marker, the tag is [$<name>:/<string>] and
    the decoder of the codec is called with [/<string>], the escape
    included. *)
Theorem marker_body_keeps_escape
    (self : Serializer) (depth : nat) (x : value)
    (name : string) (writer decode : callable) (s : string) :
  handled_before_registry (py_type x) = false ->
  by_kind self (py_type x) = Some (name, writer) ->
  writer x = Ok (VStr s) ->
  by_kind self KStr = None ->
  special s = true -> no_newline s = true ->
  name <> "" -> all_word name = true ->
  by_name self (VStr name) = Ok decode ->
  to_primitive self (S (S depth)) x = Ok (VStr ("$" ++ name ++ ":/" ++ s))
  /\ from_primitive self (VStr ("$" ++ name ++ ":/" ++ s))
     = decode (VStr ("/" ++ s)).
Proof.
  intros Hkind Hreg Hw Hstr Hs Hnl Hne Hword Hname.
  unfold to_primitive, from_primitive. split.
  - rewrite (to_inner_registered _ _ _ _ _ Hkind Hreg), Hw. cbn [bind].
    rewrite (to_inner_unregistered self depth (VStr s))
      by (reflexivity || assumption).
    unfold escaped. now rewrite Hs.
  - change "$" with _type_char.
    change (name ++ ":/" ++ s)%string with (name ++ ":" ++ ("/" ++ s))%string.
    rewrite from_inner_tag, parser_name_body by assumption.
    rewrite (span_dot_id ("/" ++ s)) by exact Hnl.
    now rewrite Hname.
Qed.

Lemma marker_body_keeps_escape_witness :
  let self := Serializer__init__ [path_codec] json_dumps json_loads in
  to_primitive self 2 (VObj "PurePosixPath" (VStr "/usr/bin"))
    = Ok (VStr "$path://usr/bin")
  /\ from_primitive self (VStr "$path://usr/bin")
    = Ok (VObj "PurePosixPath" (VStr "//usr/bin")).
Proof.
  apply (marker_body_keeps_escape
           (Serializer__init__ [path_codec] json_dumps json_loads) 0
           (VObj "PurePosixPath" (VStr "/usr/bin")) "path"
           (Codec.to_primitive path_codec) (Codec.from_primitive path_codec)
           "/usr/bin"); solve [reflexivity | discriminate].
Defined.

(** ** Keys of encoded mappings *)

Lemma dict_set_keys (k v k' : value) (m : list (value * value)) :
  In k' (map fst (dict_set k v m)) -> k' = k \/ In k' (map fst m).
Proof.
  unfold dict_set. induction m as [|[k0 v0] m IH]; simpl.
  - intros [<- | []]. now left.
  - destruct (value_eqb k0 k); simpl; intros [<- | Hin]; auto.
    destruct (IH Hin); auto.
Qed.

(** Every key of a finished mapping was there before or was computed for
    some item. *)
Lemma dict_comprehension_keys (fk fv : callable)
    (items acc d : list (value * value)) (k' : value) :
  dict_comprehension fk fv items acc = Ok d ->
  In k' (map fst d) ->
  In k' (map fst acc) \/ exists k, In k (map fst items) /\ fk k = Ok k'.
Proof.
  revert acc. induction items as [|[k0 v0] items IH]; intros acc Hd Hin.
  - simpl in Hd. injection Hd as <-. now left.
  - simpl in Hd.
    destruct (fk k0) as [k0'|] eqn:Hk0; simpl in Hd; [|discriminate].
    destruct (fv v0) as [v0'|]; simpl in Hd; [|discriminate].
    destruct (hashable k0'); [|discriminate].
    destruct (IH _ Hd Hin) as [Hacc | (k & Hk & Hfk)].
    + apply dict_set_keys in Hacc as [-> | Hacc]; [|now left].
      right. exists k0. simpl. auto.
    + right. exists k. simpl. auto.
Qed.

Lemma tag_not_type_key (name txt : string) :
  (_type_char ++ name ++ ":" ++ txt)%string <> _type_key.
Proof.
  unfold _type_key, _type_char. simpl. intros H. injection H as H.
  destruct name as [|c name]; [discriminate|].
  simpl in H. injection H as _ H. destruct name; discriminate.
Qed.

Lemma to_key_not_type_key (self : Serializer) (k k' : value) :
  to_filter_dict_keys self k = Ok k' -> k' <> VStr _type_key.
Proof.
  assert (Hreg : forall name writer,
            (w <- writer k ;; txt <- percent_s w ;;
             Ok (VStr (_type_char ++ name ++ ":" ++ txt))) = Ok k' ->
            k' <> VStr _type_key).
  { intros name writer H.
    destruct (writer k) as [w|]; [|discriminate]. cbn [bind] in H.
    destruct (percent_s w) as [txt|]; [|discriminate]. cbn [bind] in H.
    injection H as <-. intros Heq.
    apply (tag_not_type_key name txt).
    exact (f_equal (fun v => match v with VStr t => t | _ => "" end) Heq). }
  unfold to_filter_dict_keys.
  destruct k;
    try (destruct (by_kind self _) as [[name writer]|];
         [apply Hreg | intros H; injection H as <-; discriminate]).
  fold (special s). destruct (special s) eqn:Hs.
  - intros H. injection H as <-. discriminate.
  - destruct (by_kind self (py_type (VStr s))) as [[name writer]|];
      [apply Hreg|].
    intros H. injection H as <-. intros Heq. injection Heq as ->.
    discriminate.
Qed.

(** X9.  The result of encoding a mapping is a mapping that does not
    have the reserved type key among its keys, whatever the keys and the
    codecs are: the decoder never takes an encoded mapping of the user
    for a tagged compound. *)
Theorem type_key_never_emitted
    (self : Serializer) (depth : nat) (items : list (value * value))
    (r : value) :
  to_primitive self depth (VDict items) = Ok r ->
  exists d, r = VDict d /\ dict_contains (VStr "$t") d = false.
Proof.
  unfold to_primitive. destruct depth as [|depth]; [discriminate|].
  rewrite to_inner_dict.
  destruct (dict_comprehension (to_filter_dict_keys self)
              (to_inner self depth) items []) as [d|] eqn:Hd; [|discriminate].
  intros H. injection H as <-. exists d. split; [reflexivity|].
  apply dict_contains_get, dict_get_absent. intros Hin.
  destruct (dict_comprehension_keys _ _ _ _ _ _ Hd Hin)
    as [[] | (k & _ & Hk)].
  now apply to_key_not_type_key in Hk.
Qed.

Lemma type_key_never_emitted_witness :
  exists d,
    VDict [(VStr "/$t", VStr "uuid"); (VStr "v", VInt 1)] = VDict d
    /\ dict_contains (VStr "$t") d = false.
Proof.
  apply (type_key_never_emitted test_serializer 2
           [(VStr "$t", VStr "uuid"); (VStr "v", VInt 1)]).
  reflexivity.
Defined.

(** ** Sequences *)

Lemma list_map_Forall2 (f : callable) (items ps : list value) :
  list_map f items = Ok ps <-> Forall2 (fun x p => f x = Ok p) items ps.
Proof.
  revert ps. induction items as [|x items IH]; intros ps; simpl.
  - split.
    + intros H. injection H as <-. constructor.
    + intros H. inversion H. reflexivity.
  - split.
    + destruct (f x) as [p|] eqn:Hx; simpl; [|discriminate].
      destruct (list_map f items) as [ps'|]; simpl; [|discriminate].
      intros H. injection H as <-. constructor; [exact Hx|].
      now apply IH.
    + intros H. inversion H as [|? p ? ps' Hx Hrest]; subst.
      rewrite Hx. simpl. apply IH in Hrest. now rewrite Hrest.
Qed.

(** X10.  Both transformers map a sequence element by element: the
    result is a sequence of the same length whose elements are the
    results for the elements, in order, and there is a result exactly
    when there is one for every element. *)
Theorem sequence_elementwise (self : Serializer) (items : list value)
    (r : value) :
  (forall depth,
     to_primitive self (S depth) (VList items) = Ok r
     <-> exists ps, r = VList ps
                    /\ Forall2 (fun x p => to_primitive self depth x = Ok p)
                         items ps)
  /\ (from_primitive self (VList items) = Ok r
      <-> exists ps, r = VList ps
                     /\ Forall2 (fun x p => from_primitive self x = Ok p)
                          items ps).
Proof.
  unfold to_primitive, from_primitive. split; [intros depth|].
  - rewrite to_inner_list. split.
    + destruct (list_map (to_inner self depth) items) as [ps|] eqn:Hl;
        [|discriminate].
      intros H. injection H as <-. exists ps. split; [reflexivity|].
      now apply list_map_Forall2.
    + intros (ps & -> & H). apply list_map_Forall2 in H. now rewrite H.
  - cbn [from_inner]. split.
    + destruct (list_map (from_inner self) items) as [ps|] eqn:Hl;
        [|discriminate].
      intros H. injection H as <-. exists ps. split; [reflexivity|].
      now apply list_map_Forall2.
    + intros (ps & -> & H). apply list_map_Forall2 in H. now rewrite H.
Qed.

Lemma sequence_elementwise_witness :
  exists ps,
    VList [VInt 1; VStr "/$x"] = VList ps
    /\ Forall2 (fun x p => to_primitive test_serializer 1 x = Ok p)
         [VInt 1; VStr "$x"] ps.
Proof.
  apply (proj1 (sequence_elementwise test_serializer [VInt 1; VStr "$x"]
                  (VList [VInt 1; VStr "/$x"])) 1%nat).
  reflexivity.
Defined.


(** ** Trees without markers *)

Lemma Forall2_diag {A : Type} (R : A -> A -> Prop) (l : list A) :
  Forall (fun x => R x x) l -> Forall2 R l l.
Proof. induction 1; constructor; assumption. Qed.

Lemma plain_tree_walks (self : Serializer) (t : value) :
  plain_tree t ->
  from_inner self t = Ok t
  /\ ((forall k, handled_before_registry k = false -> by_kind self k = None) ->
      exists d0, forall depth, d0 <= depth ->
        to_inner self depth t = Ok t).
Proof.
  set (H := forall k, handled_before_registry k = false ->
                      by_kind self k = None).
  assert (Hscalar : forall x,
            handled_before_registry (py_type x) = false ->
            (forall s, x = VStr s -> special s = false) ->
            H -> exists d0, forall depth, d0 <= depth ->
                   to_inner self depth x = Ok x).
  { intros x Hkind Hstr Hnone. exists 1. intros [|depth] Hd; [lia|].
    rewrite (to_inner_unregistered self depth x Hkind (Hnone _ Hkind)).
    destruct x; try reflexivity.
    unfold escaped. now rewrite (Hstr s eq_refl). }
  apply (plain_tree_mut
    (fun t => from_inner self t = Ok t
              /\ (H -> exists d0, forall depth, d0 <= depth ->
                          to_inner self depth t = Ok t))
    (fun items => list_map (from_inner self) items = Ok items
              /\ (H -> exists d0, forall depth, d0 <= depth ->
                          list_map (to_inner self depth) items = Ok items))
    (fun items =>
       Forall (fun kv => from_filter_dict_keys self (fst kv) = Ok (fst kv)
                         /\ from_inner self (snd kv) = Ok (snd kv)
                         /\ hashable (fst kv) = true) items
       /\ ~ In (VStr _type_key) (map fst items)
       /\ (H -> exists d0, forall depth, d0 <= depth ->
              Forall (fun kv => to_filter_dict_keys self (fst kv) = Ok (fst kv)
                                /\ to_inner self depth (snd kv) = Ok (snd kv)
                                /\ hashable (fst kv) = true) items))).
  - split; [reflexivity|]. apply Hscalar; [reflexivity | discriminate].
  - intros b. split; [reflexivity|].
    apply Hscalar; [reflexivity | discriminate].
  - intros n. split; [reflexivity|]. intros _. exists 1.
    intros [|depth] Hd; [lia | reflexivity].
  - intros bits. split; [reflexivity|].
    apply Hscalar; [reflexivity | discriminate].
  - intros s Hs. split.
    + pose proof (from_inner_escaped_str self s) as Hesc.
      unfold escaped in Hesc. now rewrite Hs in Hesc.
    + apply Hscalar; [reflexivity|]. intros s' Heq. now injection Heq as <-.
  - intros cls state. split; [reflexivity|].
    apply Hscalar; [reflexivity | discriminate].
  - intros items _ [Hfrom Hto]. split.
    + cbn [from_inner]. now rewrite Hfrom.
    + intros Hnone. destruct (Hto Hnone) as [d0 Hd0]. exists (S d0).
      intros [|depth] Hd; [lia|]. rewrite to_inner_list, Hd0 by lia.
      reflexivity.
  - intros items _ (Hfrom & Hno & Hto) Hnd. split.
    + rewrite from_inner_dict, dict_get_absent by exact Hno.
      rewrite (dict_comprehension_ok _ _ items items)
        by (apply Forall2_diag; exact Hfrom).
      now rewrite store_fresh_items.
    + intros Hnone. destruct (Hto Hnone) as [d0 Hd0]. exists (S d0).
      intros [|depth] Hd; [lia|]. rewrite to_inner_dict.
      rewrite (dict_comprehension_ok _ _ items items)
        by (apply Forall2_diag, Hd0; lia).
      now rewrite store_fresh_items.
  - split; [reflexivity|]. intros _. exists 0. reflexivity.
  - intros x rest _ [Hfrom1 Hto1] _ [Hfrom2 Hto2]. split.
    + cbn [list_map]. now rewrite Hfrom1, Hfrom2.
    + intros Hnone. destruct (Hto1 Hnone) as [d1 Hd1].
      destruct (Hto2 Hnone) as [d2 Hd2]. exists (Nat.max d1 d2).
      intros depth Hd. cbn [list_map]. rewrite Hd1, Hd2 by lia. reflexivity.
  - split; [constructor|]. split; [tauto|]. intros _. exists 0.
    intros; constructor.
  - intros k v rest Hk _ [Hfrom1 Hto1] _ (Hfrom2 & Hno & Hto2).
    assert (Hesc : escaped k = k) by (unfold escaped; now rewrite Hk).
    split; [|split].
    + constructor; [|exact Hfrom2]. cbn [fst snd].
      rewrite from_key_as_value.
      pose proof (from_inner_escaped_str self k) as Hkey.
      rewrite Hesc in Hkey. auto.
    + simpl. intros [Heq | Hin]; [|tauto].
      injection Heq as ->. discriminate.
    + intros Hnone. destruct (Hto1 Hnone) as [d1 Hd1].
      destruct (Hto2 Hnone) as [d2 Hd2]. exists (Nat.max d1 d2).
      intros depth Hd. constructor; [|apply Hd2; lia]. cbn [fst snd].
      split; [|split; [apply Hd1; lia | reflexivity]].
      rewrite to_key_plain by (right; now apply Hnone). now rewrite Hesc.
Qed.

(** ** The decoder under a recursion limit *)

Lemma list_map_ext (f g : callable) (items : list value) :
  (forall x, In x items -> f x = g x) -> list_map f items = list_map g items.
Proof.
  induction items as [|x items IH]; intros H; simpl; [reflexivity|].
  rewrite (H x) by now left. rewrite IH; [reflexivity|].
  intros y Hy. apply H. now right.
Qed.

Lemma dict_comprehension_ext (fk f g : callable)
    (items acc : list (value * value)) :
  (forall k v, In (k, v) items -> f v = g v) ->
  dict_comprehension fk f items acc = dict_comprehension fk g items acc.
Proof.
  revert acc. induction items as [|[k v] items IH]; intros acc H; simpl;
    [reflexivity|].
  rewrite (H k v) by now left.
  destruct (fk k) as [k'|]; simpl; [|reflexivity].
  destruct (g v) as [v'|]; simpl; [|reflexivity].
  destruct (hashable k'); [|reflexivity].
  apply IH. intros k0 v0 Hin. apply (H k0 v0). now right.
Qed.

Lemma apply_at_ext (f g : callable) (key : value)
    (items : list (value * value)) :
  (forall k v, In (k, v) items -> f v = g v) ->
  apply_at f key items = apply_at g key items.
Proof.
  induction items as [|[k v] items IH]; intros H; simpl; [reflexivity|].
  destruct (value_eqb k key).
  - apply (H k v). now left.
  - apply IH. intros k0 v0 Hin. apply (H k0 v0). now right.
Qed.

Lemma nesting_element (items : list value) (x : value) :
  In x items -> nesting x < nesting (VList items).
Proof.
  cbn [nesting]. induction items as [|y items IH]; intros Hin;
    [contradiction|].
  destruct Hin as [-> | Hin]; [lia|]. specialize (IH Hin). lia.
Qed.

Lemma nesting_value (items : list (value * value)) (k v : value) :
  In (k, v) items -> nesting v < nesting (VDict items).
Proof.
  cbn [nesting]. induction items as [|[k0 v0] items IH]; intros Hin;
    [contradiction|].
  destruct Hin as [Heq | Hin]; [injection Heq as -> ->; lia|].
  specialize (IH Hin). lia.
Qed.

Lemma nesting_pos (v : value) : 1 <= nesting v.
Proof. destruct v; cbn [nesting]; lia. Qed.

(** Within the limit the bounded walk is the walk of [from_inner]. *)
Lemma from_inner_limited_exact (self : Serializer) (depth : nat) (t : value) :
  nesting t <= depth ->
  from_inner_limited self depth t = from_inner self t.
Proof.
  revert t. induction depth as [|depth IH]; intros t Ht.
  - pose proof (nesting_pos t). lia.
  - destruct t; try reflexivity.
    + cbn [from_inner_limited from_inner].
      rewrite (list_map_ext (from_inner_limited self depth) (from_inner self));
        [reflexivity|].
      intros x Hx. apply IH. pose proof (nesting_element items x Hx). lia.
    + assert (Hvalues : forall k v, In (k, v) items ->
                from_inner_limited self depth v = from_inner self v).
      { intros k v Hin. apply IH.
        pose proof (nesting_value items k v Hin). lia. }
      cbn [from_inner_limited from_inner].
      rewrite (dict_comprehension_ext _ _ (from_inner self) items [] Hvalues).
      rewrite (apply_at_ext _ (from_inner self) _ items Hvalues).
      reflexivity.
Qed.


(** X11.  A tree that carries no marker is left as it is: for every
    registry the decoder returns it unchanged, calling no codec, once
    the recursion limit is not below the nesting of the tree, and so
    does the encoder, from some depth on, when the registry has no codec
    for a kind the encoder looks up. *)
Theorem plain_tree_unchanged (self : Serializer) (t : value) :
  plain_tree t ->
  (forall depth, nesting t <= depth ->
     from_primitive_limited self depth t = Ok t)
  /\ ((forall k, handled_before_registry k = false -> by_kind self k = None) ->
      exists d0, forall depth, d0 <= depth ->
        to_primitive self depth t = Ok t).
Proof.
  intros Ht. destruct (plain_tree_walks self t Ht) as [Hfrom Hto].
  unfold from_primitive_limited, to_primitive. split; [|exact Hto].
  intros depth Hd. now rewrite from_inner_limited_exact.
Qed.

Lemma plain_tree_unchanged_witness :
  let t := VDict [(VStr "a", VList [VInt 1; VStr "x"; VNone]);
                  (VStr "b", VFloat 0)] in
  from_primitive_limited test_serializer 3 t = Ok t
  /\ exists d0, forall depth, d0 <= depth ->
       to_primitive (Serializer__init__ [] json_dumps json_loads) depth t
       = Ok t.
Proof.
  intros t.
  assert (Ht : plain_tree t).
  { apply plain_dict;
      [ repeat first [ apply plain_items_cons | apply plain_items_nil
                     | apply plain_list | apply plain_all_cons
                     | apply plain_all_nil | apply plain_int
                     | apply plain_str | apply plain_none
                     | apply plain_float | reflexivity ]
      | simpl; repeat constructor; simpl; intuition discriminate ]. }
  split.
  - apply (proj1 (plain_tree_unchanged test_serializer t Ht) 3%nat).
    simpl. lia.
  - apply (proj2 (plain_tree_unchanged
                    (Serializer__init__ [] json_dumps json_loads) t Ht)).
    reflexivity.
Defined.



(** ** Keys of a registered kind *)

Lemma to_key_registered
    (self : Serializer) (k : value) (name : string) (writer : callable)
    (w : value) (txt : string) :
  (forall s, k = VStr s -> special s = false) ->
  by_kind self (py_type k) = Some (name, writer) ->
  writer k = Ok w -> percent_s w = Ok txt ->
  to_filter_dict_keys self k
  = Ok (VStr (_type_char ++ name ++ ":" ++ txt)).
Proof.
  intros Hstr Hreg Hw Htxt. unfold to_filter_dict_keys.
  destruct k; try (rewrite Hreg, Hw; cbn [bind]; now rewrite Htxt).
  fold (special s). rewrite (Hstr s eq_refl), Hreg, Hw. cbn [bind].
  now rewrite Htxt.
Qed.

(** X12.  A key that is [None], a bool, an int, a float or a string not
    beginning with a marker, of a registered kind whose encoder returns
    a string, becomes the string [$<name>:<text>], the text taken as it
    is; when the text is one non-empty line, the name is one or more
    word characters and the decoder found under the name restores the
    key from the text, the mapping of that key round-trips. *)
Theorem registered_key_roundtrip
    (self : Serializer) (k : value) (name : string)
    (writer decode : callable) (txt : string) :
  hashable k = true ->
  (forall s, k = VStr s -> special s = false) ->
  by_kind self (py_type k) = Some (name, writer) ->
  writer k = Ok (VStr txt) ->
  txt <> "" -> no_newline txt = true ->
  name <> "" -> all_word name = true ->
  by_name self (VStr name) = Ok decode ->
  decode (VStr txt) = Ok k ->
  forall depth v p,
    to_primitive self depth v = Ok p ->
    from_primitive self p = Ok v ->
    to_primitive self (S depth) (VDict [(k, v)])
    = Ok (VDict [(VStr ("$" ++ name ++ ":" ++ txt), p)])
    /\ from_primitive self (VDict [(VStr ("$" ++ name ++ ":" ++ txt), p)])
       = Ok (VDict [(k, v)]).
Proof.
  intros Hhash Hstr Hreg Hw Hne Hnl Hname Hword Hby Hdec
    depth v p Hto Hfrom.
  unfold to_primitive, from_primitive in *. change "$" with _type_char.
  split.
  - rewrite to_inner_dict. cbn [dict_comprehension].
    rewrite (to_key_registered self k name writer (VStr txt) txt
               Hstr Hreg Hw eq_refl).
    cbn [bind]. rewrite Hto. reflexivity.
  - rewrite from_inner_dict.
    assert (Hno : dict_get (VStr _type_key)
                    [(VStr (_type_char ++ name ++ ":" ++ txt), p)] = None).
    { apply dict_get_absent. simpl. intros [Heq | []].
      apply (tag_not_type_key name txt).
      exact (f_equal (fun v => match v with VStr t => t | _ => "" end) Heq). }
    rewrite Hno. cbn [dict_comprehension].
    rewrite from_key_as_value, from_inner_tag, parser_name_body
      by assumption.
    rewrite span_dot_id by assumption. rewrite Hby. cbn [bind].
    destruct txt as [|c txt]; [congruence|].
    cbn [group_value]. rewrite Hdec. cbn [bind]. rewrite Hfrom. cbn [bind].
    rewrite Hhash. reflexivity.
Qed.

Lemma registered_key_roundtrip_witness :
  let self := Serializer__init__ [int_codec] json_dumps json_loads in
  to_primitive self 2 (VDict [(VInt 7, VStr "seven")])
    = Ok (VDict [(VStr "$int:7", VStr "seven")])
  /\ from_primitive self (VDict [(VStr "$int:7", VStr "seven")])
    = Ok (VDict [(VInt 7, VStr "seven")]).
Proof.
  apply (registered_key_roundtrip
           (Serializer__init__ [int_codec] json_dumps json_loads)
           (VInt 7) "int" (Codec.to_primitive int_codec)
           (Codec.from_primitive int_codec) "7");
    solve [reflexivity | discriminate].
Defined.

(** X13.  With a codec for [str], a string that begins with a marker is
    escaped when it is a key, the codec not being called, and goes
    through the codec when it is a value: the key rule tests the markers
    first, the value rule the registry. *)
Theorem str_codec_key_escaped_first
    (self : Serializer) (name : string) (writer : callable) (s : string) :
  by_kind self KStr = Some (name, writer) ->
  special s = true ->
  to_filter_dict_keys self (VStr s) = Ok (VStr ("/" ++ s))
  /\ (forall depth v p,
        writer (VStr s) = Ok v -> v <> VNone ->
        to_primitive self depth v = Ok p ->
        to_primitive self (S depth) (VStr s)
        = Ok match p with
             | VStr body => VStr ("$" ++ name ++ ":" ++ body)
             | _ => VDict [(VStr "$t", VStr name); (VStr "v", p)]
             end).
Proof.
  intros Hreg Hs. split.
  - unfold to_filter_dict_keys. fold (special s). now rewrite Hs.
  - unfold to_primitive. intros depth v p Hw Hv Hp.
    rewrite (to_inner_registered self depth (VStr s) name writer eq_refl Hreg).
    rewrite Hw. cbn [bind].
    destruct v; try congruence; rewrite Hp; destruct p; reflexivity.
Qed.

Lemma str_codec_key_escaped_first_witness :
  let self := Serializer__init__ [codes_codec] json_dumps json_loads in
  to_primitive self 4 (VDict [(VStr "$a", VStr "$a")])
  = Ok (VDict [(VStr "/$a",
                VDict [(VStr "$t", VStr "codes");
                       (VStr "v", VList [VInt 36; VInt 97])])]).
Proof.
  intros self.
  destruct (str_codec_key_escaped_first self "codes"
              (Codec.to_primitive codes_codec) "$a" eq_refl eq_refl)
    as [Hkey Hvalue].
  specialize (Hvalue 2%nat (VList [VInt 36; VInt 97])
                (VList [VInt 36; VInt 97]) eq_refl ltac:(discriminate) eq_refl).
  unfold to_primitive in *. rewrite to_inner_dict. cbn [dict_comprehension].
  rewrite Hkey. cbn [bind]. rewrite Hvalue. reflexivity.
Defined.

(** ** Exceptions and recursion on the encode path *)

Lemma to_inner_raise_propagates (self : Serializer) (t u : value) :
  encodes_through self t u ->
  (forall depth, exists e, to_inner self depth u = Raise e) ->
  forall depth, exists e, to_inner self depth t = Raise e.
Proof.
  induction 1 as [t | items x u Hin _ IH | items k v u Hin _ IH
                 | x name writer v u Hkind Hreg Hw Hv _ IH];
    intros Hu [|depth]; try (simpl; eauto; fail).
  - apply Hu.
  - destruct (IH Hu depth) as [e He].
    destruct (list_map_raise _ items x e Hin He) as [e' He'].
    rewrite to_inner_list, He'. simpl. eauto.
  - destruct (IH Hu depth) as [e He].
    destruct (dict_comprehension_raise (to_filter_dict_keys self)
                (to_inner self depth) items [] k v Hin) as [e' He']; [eauto|].
    rewrite to_inner_dict, He'. simpl. eauto.
  - destruct (IH Hu depth) as [e He].
    rewrite (to_inner_registered _ _ _ _ _ Hkind Hreg), Hw. cbn [bind].
    destruct v; try congruence; rewrite He; simpl; eauto.
Qed.

(** X14.  An exception raised by the encoder of a codec ends the encode
    of every value that holds the offending value, as an element, as a
    value of a mapping or inside what another encoder returned:
    [to_primitive] raises and gives no tree. *)
Theorem encoder_exception_aborts
    (self : Serializer) (t u : value) (name : string) (writer : callable)
    (e : exn) :
  encodes_through self t u ->
  handled_before_registry (py_type u) = false ->
  by_kind self (py_type u) = Some (name, writer) ->
  writer u = Raise e ->
  to_primitive self 1 u = Raise e
  /\ forall depth, exists e', to_primitive self depth t = Raise e'.
Proof.
  intros Ht Hkind Hreg Hw. unfold to_primitive.
  assert (Hu : forall depth, to_inner self (S depth) u = Raise e).
  { intros depth.
    now rewrite (to_inner_registered _ _ _ _ _ Hkind Hreg), Hw. }
  split; [apply Hu|].
  apply (to_inner_raise_propagates self t u Ht).
  intros [|depth]; [simpl; eauto | rewrite Hu; eauto].
Qed.

Lemma encoder_exception_aborts_witness :
  to_primitive test_serializer 1 (VObj "MyType" VNone)
    = Raise (AttributeError (VObj "MyType" VNone) "a")
  /\ exists e',
       to_primitive test_serializer 5
         (VDict [(VStr "x", VList [uid; VObj "MyType" VNone])]) = Raise e'.
Proof.
  destruct (encoder_exception_aborts test_serializer
              (VDict [(VStr "x", VList [uid; VObj "MyType" VNone])])
              (VObj "MyType" VNone) "mytype"
              (Codec.to_primitive mytype_codec)
              (AttributeError (VObj "MyType" VNone) "a"))
    as [H1 H2]; try reflexivity.
  - apply through_value with (k := VStr "x")
                             (v := VList [uid; VObj "MyType" VNone]);
      [left; reflexivity|].
    apply through_element with (x := VObj "MyType" VNone);
      [right; left; reflexivity | apply through_here].
  - split; [exact H1 | apply (H2 5%nat)].
Defined.

(** X15.  A codec whose encoder returns, for every value of its kind, a
    value of that kind again is never done: what the encoder returned is
    encoded in turn by the same codec, and [to_primitive] ends in
    [RecursionError] whatever depth is allowed. *)
Theorem own_kind_codec_never_returns
    (self : Serializer) (K : kind) (name : string) (writer : callable) :
  handled_before_registry K = false ->
  by_kind self K = Some (name, writer) ->
  (forall y, py_type y = K ->
     exists v, writer y = Ok v /\ v <> VNone /\ py_type v = K) ->
  forall depth x,
    py_type x = K -> to_primitive self depth x = Raise RecursionError.
Proof.
  intros Hkind Hreg Hown. unfold to_primitive.
  induction depth as [|depth IH]; intros x Hx; [reflexivity|].
  destruct (Hown x Hx) as (v & Hw & Hv & Hvk).
  rewrite (to_inner_registered self depth x name writer)
    by (rewrite Hx; assumption).
  rewrite Hw. cbn [bind].
  destruct v; try congruence; now rewrite (IH _ Hvk).
Qed.

Lemma own_kind_codec_never_returns_witness :
  to_primitive (Serializer__init__ [str_codec] json_dumps json_loads)
    1000 (VStr "a") = Raise RecursionError.
Proof.
  apply (own_kind_codec_never_returns
           (Serializer__init__ [str_codec] json_dumps json_loads)
           KStr "str" (Codec.to_primitive str_codec));
    try reflexivity.
  intros y Hy. destruct y; try discriminate.
  exists (VStr s). split; [reflexivity|]. split; [discriminate | reflexivity].
Defined.

(** ** [dumps] and [loads] *)

Lemma faithful_decodes_back (self : Serializer) (depth : nat) (x p : value) :
  faithful self x ->
  to_inner self depth x = Ok p -> from_inner self p = Ok x.
Proof.
  intros Hx Hp.
  destruct (faithful_roundtrip_at self x Hx) as (d0 & p0 & Hto & Hfrom).
  pose proof (to_inner_le self depth (Nat.max d0 depth) x p ltac:(lia) Hp)
    as Hp'.
  rewrite (Hto (Nat.max d0 depth)) in Hp' by lia.
  injection Hp' as <-. exact Hfrom.
Qed.

(** X16.  [loads] undoes [dumps]: for a faithful value whose tree the
    text encoder writes as a text that the text decoder reads back as
    that tree, [dumps] returns the text and [loads] of the text returns
    the value. *)
Theorem loads_undoes_dumps
    (self : Serializer) (depth : nat) (x p : value) (text : string) :
  faithful self x ->
  to_primitive self depth x = Ok p ->
  encoder self p = Ok text ->
  decoder self text = Ok p ->
  dumps self depth x = Ok text /\ loads self text = Ok x.
Proof.
  intros Hx Hp Henc Hdec. unfold dumps, loads.
  rewrite Hp, Henc, Hdec. split; [reflexivity|].
  apply (faithful_decodes_back self depth x p Hx Hp).
Qed.

Lemma loads_undoes_dumps_witness :
  let self := Serializer__init__ [uuid_codec] text_of_str str_of_text in
  dumps self 2 uid = Ok "$uuid:152e4227-6852-4f8e-912d-bd75478c7eaa"
  /\ loads self "$uuid:152e4227-6852-4f8e-912d-bd75478c7eaa" = Ok uid.
Proof.
  intros self.
  apply (loads_undoes_dumps self 2 uid
           (VStr "$uuid:152e4227-6852-4f8e-912d-bd75478c7eaa"));
    try reflexivity.
  apply (faithful_scalar self uid "uuid"
           (Codec.to_primitive uuid_codec) (Codec.from_primitive uuid_codec)
           "152e4227-6852-4f8e-912d-bd75478c7eaa");
    try reflexivity; try discriminate.
  split; [discriminate | split; reflexivity].
Defined.
